(** * RTCStream: the write flow-control state machine of [src/index.ts]

    A shallow embedding of the [RTCStream] duplex adapter over a
    [WebSocket] or [RTCDataChannel] handle.  The adapter's methods run in a
    small monad that reads the transport handle as it is observed at that
    moment, threads the adapter's private fields, records the effects the
    code performs (calls of [send], [close], [removeEventListener], timers,
    invocations of write and destroy callbacks) and propagates JavaScript
    exceptions. *)

From Stdlib Require Import List String ZArith Bool Lia.
From Stdlib.Strings Require Import Byte.
Import ListNotations.
Open Scope Z_scope.

(** ** Values of the program *)

(** A [Buffer] is a sequence of bytes. *)
Definition Buffer := list byte.

(** An [Error] object, identified by its [message]. *)
Record Error := mkError { message : string }.

(** [readyState] values: numbers for a [WebSocket], strings for an
    [RTCDataChannel]; compared with [===]. *)
Inductive ReadyState :=
| RSNum (n : Z)
| RSStr (s : string).

Definition rs_eqb (x y : ReadyState) : bool :=
  match x, y with
  | RSNum a, RSNum b => Z.eqb a b
  | RSStr a, RSStr b => String.eqb a b
  | _, _ => false
  end.

(** The four events the adapter subscribes to. *)
Inductive EventName := EvOpen | EvClose | EvError | EvMessage.

(** Write callbacks handed over by the duplex layer, told apart by identity. *)
Definition WriteCallback := nat.

(** The transport handle as the code observes it at one moment: its kind
    (a [WebSocket] exposes [OPEN]/[CLOSED] constants), [readyState],
    [bufferedAmount], and whether a call of [send] now raises (and what). *)
Inductive HandleKind :=
| WebSocketKind (OPEN CLOSED : Z)
| DataChannelKind.

Record Handle := mkHandle {
  kind : HandleKind;
  readyState : ReadyState;
  bufferedAmount : Z;
  sendThrows : option Error
}.

(** The adapter's fields ([#bufferSize], [#bufferTimeout], the two state
    sentinels, the pending write), the listeners it holds on the handle and
    the duplex layer's [destroyed] flag. *)
Record RTCStream := mkRTCStream {
  bufferSize : Z;
  bufferTimeout : Z;
  openStateValue : ReadyState;
  closedStateValue : ReadyState;
  pendingWriteBuffer : option Buffer;
  pendingWriteCallback : option WriteCallback;
  listeners : list EventName;
  destroyed : bool
}.

(** Observable effects, in the order the code performs them. *)
Inductive Effect :=
| Send (chunk : Buffer)                       (* handle.send(chunk) *)
| CallWriteCallback (cb : WriteCallback) (error : option Error)
| SetTimeoutRetry (ms : Z)                    (* setTimeout(_maybeProcessPendingWrite, ms) *)
| NextTick (ev : EventName)                   (* nextTick(_onOpen) / nextTick(_onClose) *)
| AddListener (ev : EventName)
| RemoveListener (ev : EventName)
| CloseHandle                                 (* handle.close() *)
| EmitConnect                                 (* this.emit("connect") *)
| Push (data : Buffer)                        (* this.push(data) *)
| DestroyCallback (error : option Error).     (* callback(error) in _destroy *)

(** ** The monad: read the handle, thread the adapter, log effects, throw *)

Inductive Result (A : Type) :=
| Ok (a : A)
| Throw (e : Error).
Arguments Ok {A} a.
Arguments Throw {A} e.

Definition M (A : Type) : Type :=
  Handle -> RTCStream -> Result A * RTCStream * list Effect.

Definition ret {A} (a : A) : M A := fun _ s => (Ok a, s, []).

Definition bind {A B} (m : M A) (k : A -> M B) : M B :=
  fun h s =>
    match m h s with
    | (Ok a, s1, t1) => let '(r, s2, t2) := k a h s1 in (r, s2, t1 ++ t2)
    | (Throw e, s1, t1) => (Throw e, s1, t1)
    end.

Notation "x <- m ;; k" := (bind m (fun x => k))
  (at level 61, m at next level, right associativity).
Notation "m ;; k" := (bind m (fun _ => k))
  (at level 61, right associativity).

Definition get : M RTCStream := fun _ s => (Ok s, s, []).
Definition put (s : RTCStream) : M unit := fun _ _ => (Ok tt, s, []).
Definition handle : M Handle := fun h s => (Ok h, s, []).
Definition emit (e : Effect) : M unit := fun _ s => (Ok tt, s, [e]).
Definition throw {A} (e : Error) : M A := fun _ s => (Throw e, s, []).

(** [try { m } catch (e) { k e }] *)
Definition try_catch {A} (m : M A) (k : Error -> M A) : M A :=
  fun h s =>
    match m h s with
    | (Ok a, s1, t1) => (Ok a, s1, t1)
    | (Throw e, s1, t1) => let '(r, s2, t2) := k e h s1 in (r, s2, t1 ++ t2)
    end.

Definition set_pendingWriteBuffer (b : option Buffer) (s : RTCStream) : RTCStream :=
  {| bufferSize := bufferSize s; bufferTimeout := bufferTimeout s;
     openStateValue := openStateValue s; closedStateValue := closedStateValue s;
     pendingWriteBuffer := b; pendingWriteCallback := pendingWriteCallback s;
     listeners := listeners s; destroyed := destroyed s |}.

Definition set_pendingWriteCallback (c : option WriteCallback) (s : RTCStream) : RTCStream :=
  {| bufferSize := bufferSize s; bufferTimeout := bufferTimeout s;
     openStateValue := openStateValue s; closedStateValue := closedStateValue s;
     pendingWriteBuffer := pendingWriteBuffer s; pendingWriteCallback := c;
     listeners := listeners s; destroyed := destroyed s |}.

Definition set_listeners (l : list EventName) (s : RTCStream) : RTCStream :=
  {| bufferSize := bufferSize s; bufferTimeout := bufferTimeout s;
     openStateValue := openStateValue s; closedStateValue := closedStateValue s;
     pendingWriteBuffer := pendingWriteBuffer s;
     pendingWriteCallback := pendingWriteCallback s;
     listeners := l; destroyed := destroyed s |}.

Definition set_destroyed (d : bool) (s : RTCStream) : RTCStream :=
  {| bufferSize := bufferSize s; bufferTimeout := bufferTimeout s;
     openStateValue := openStateValue s; closedStateValue := closedStateValue s;
     pendingWriteBuffer := pendingWriteBuffer s;
     pendingWriteCallback := pendingWriteCallback s;
     listeners := listeners s; destroyed := d |}.

Definition modify (f : RTCStream -> RTCStream) : M unit :=
  s <- get ;; put (f s).

(** ** Buffer operations *)

(** [buf.slice(start, end)] (Node's [Buffer.prototype.slice]): negative
    indices count from the end, both are clamped to [0, length]. *)
Definition slice_index (len x : Z) : Z :=
  if x <? 0 then Z.max (x + len) 0 else Z.min x len.

Definition slice (b : Buffer) (start end_ : Z) : Buffer :=
  let len := Z.of_nat (List.length b) in
  let s := slice_index len start in
  let e := slice_index len end_ in
  firstn (Z.to_nat (e - s)) (skipn (Z.to_nat s) b).

(** [buf.slice(start)] *)
Definition slice_from (b : Buffer) (start : Z) : Buffer :=
  slice b start (Z.of_nat (List.length b)).

(** [handle.send(chunk)]: the call is recorded; it raises when the handle
    says so. *)
Definition send (chunk : Buffer) : M unit :=
  emit (Send chunk) ;;
  h <- handle ;;
  match sendThrows h with
  | Some e => throw e
  | None => ret tt
  end.

Definition TypeError : Error := mkError "Cannot read properties of null".

(** ** The write path *)

(** [_finishPendingWrite(error)], with [call c error] standing for running
    the user's callback [c] synchronously: its code runs in the same monad,
    on the adapter's state as it is at the call, so it may read the pending
    fields or re-enter the adapter. *)
Definition _finishPendingWrite_with (call : WriteCallback -> option Error -> M unit)
    (error : option Error) : M unit :=
  s <- get ;;
  let cb := pendingWriteCallback s in
  modify (set_pendingWriteBuffer None) ;;
  modify (set_pendingWriteCallback None) ;;
  match cb with
  | Some c => call c error
  | None => throw TypeError          (* cb(error) with cb === null *)
  end.

(** A callback as the write path sees it: its invocation is recorded and
    the code it runs is left to the caller of the stream. *)
Definition invoke_callback (c : WriteCallback) (error : option Error) : M unit :=
  emit (CallWriteCallback c error).

Definition _finishPendingWrite (error : option Error) : M unit :=
  _finishPendingWrite_with invoke_callback error.

(** [_maybeProcessPendingWrite()] *)
Definition _maybeProcessPendingWrite : M unit :=
  s <- get ;;
  match pendingWriteCallback s with
  | None => ret tt
  | Some _ =>
    h <- handle ;;
    let rs := readyState h in
    if rs_eqb rs (closedStateValue s) then
      _finishPendingWrite (Some (mkError "not connected"))
    else if negb (rs_eqb rs (openStateValue s)) then
      ret tt
    else
      let bufferSpaceAvailable := bufferSize s - bufferedAmount h in
      if bufferSpaceAvailable =? 0 then
        emit (SetTimeoutRetry (bufferTimeout s))
      else
        match pendingWriteBuffer s with
        | None => throw TypeError      (* buffer.length with buffer === null *)
        | Some buffer =>
          let '(chunk, rest) :=
            if Z.of_nat (List.length buffer) >? bufferSpaceAvailable
            then (slice buffer 0 bufferSpaceAvailable,
                  Some (slice_from buffer bufferSpaceAvailable))
            else (buffer, None) in
          sent <- try_catch (send chunk ;; ret true)
                            (fun e => _finishPendingWrite (Some e) ;; ret false) ;;
          if negb sent then ret tt          (* return from the catch block *)
          else
            match rest with
            | Some r =>
              modify (set_pendingWriteBuffer (Some r)) ;;
              emit (SetTimeoutRetry (bufferTimeout s))
            | None => _finishPendingWrite None
            end
        end
  end.

(** ** Encoding strings as UTF-8

    A JavaScript string is a sequence of UTF-16 code units.
    [Buffer.from(str, "utf8")] encodes each code point; a surrogate that is
    not part of a pair becomes U+FFFD. *)
Definition JSString := list Z.

Definition byte_of_Z (z : Z) : byte :=
  match Byte.of_N (Z.to_N z) with Some b => b | None => x00 end.

Definition utf8_code_point (cp : Z) : Buffer :=
  map byte_of_Z
    (if cp <? 128 then [cp]
     else if cp <? 2048 then
       [Z.lor 192 (Z.shiftr cp 6); Z.lor 128 (Z.land cp 63)]
     else if cp <? 65536 then
       [Z.lor 224 (Z.shiftr cp 12); Z.lor 128 (Z.land (Z.shiftr cp 6) 63);
        Z.lor 128 (Z.land cp 63)]
     else
       [Z.lor 240 (Z.shiftr cp 18); Z.lor 128 (Z.land (Z.shiftr cp 12) 63);
        Z.lor 128 (Z.land (Z.shiftr cp 6) 63); Z.lor 128 (Z.land cp 63)]).

Definition is_high_surrogate (u : Z) : bool := (55296 <=? u) && (u <=? 56319).
Definition is_low_surrogate (u : Z) : bool := (56320 <=? u) && (u <=? 57343).

Fixpoint utf8_encode (str : JSString) : Buffer :=
  match str with
  | [] => []
  | u :: rest =>
    if is_high_surrogate u then
      match rest with
      | u2 :: rest' =>
        if is_low_surrogate u2 then
          utf8_code_point (65536 + (u - 55296) * 1024 + (u2 - 56320))
            ++ utf8_encode rest'
        else utf8_code_point 65533 ++ utf8_encode rest
      | [] => utf8_code_point 65533
      end
    else if is_low_surrogate u then utf8_code_point 65533 ++ utf8_encode rest
    else utf8_code_point u ++ utf8_encode rest
  end.

(** A chunk handed to [_write]/[_writev]: a string or a [Buffer]. *)
Inductive Chunk :=
| ChunkString (str : JSString)
| ChunkBuffer (b : Buffer).

(** [(typeof chunk === "string") ? Buffer.from(chunk, "utf8") : chunk] *)
Definition chunk_bytes (c : Chunk) : Buffer :=
  match c with
  | ChunkString str => utf8_encode str
  | ChunkBuffer b => b
  end.

(** [Buffer.concat(chunks.map(...))] *)
Definition concat_chunks (chunks : list Chunk) : Buffer :=
  List.concat (map chunk_bytes chunks).

(** [_writev(chunks, callback)] *)
Definition _writev (chunks : list Chunk) (callback : WriteCallback) : M unit :=
  modify (set_pendingWriteBuffer (Some (concat_chunks chunks))) ;;
  modify (set_pendingWriteCallback (Some callback)) ;;
  _maybeProcessPendingWrite.

(** [_write(chunk, encoding, callback)] *)
Definition _write (chunk : Chunk) (callback : WriteCallback) : M unit :=
  _writev [chunk] callback.

(** ** Teardown *)

Definition EventName_eqb (x y : EventName) : bool :=
  match x, y with
  | EvOpen, EvOpen | EvClose, EvClose | EvError, EvError
  | EvMessage, EvMessage => true
  | _, _ => false
  end.

(** [handle.removeEventListener(ev, ...)] *)
Definition removeEventListener (ev : EventName) : M unit :=
  emit (RemoveListener ev) ;;
  modify (fun s => set_listeners (filter (fun x => negb (EventName_eqb x ev))
                                         (listeners s)) s).

(** [_destroy(error, callback)] *)
Definition _destroy (error : option Error) : M unit :=
  removeEventListener EvMessage ;;
  removeEventListener EvError ;;
  removeEventListener EvClose ;;
  removeEventListener EvOpen ;;
  emit CloseHandle ;;
  emit (DestroyCallback error).

(** [this.destroy(error)] of the duplex layer (Node's [stream.destroy]):
    a no-op on a stream already destroyed; otherwise it marks the stream
    destroyed and hands over to [_destroy]. *)
Definition destroy (error : option Error) : M unit :=
  s <- get ;;
  if destroyed s then ret tt
  else modify (set_destroyed true) ;; _destroy error.

(** ** Transport events *)

(** An [error] event: [Some m] when the event has a [message] property. *)
Definition ErrorEvent := option string.

(** [data] of a [message] event. *)
Inductive MessageData :=
| DataArrayBuffer (b : Buffer)
| DataString (str : JSString).

(** [_onOpen] *)
Definition _onOpen : M unit :=
  emit EmitConnect ;;
  _maybeProcessPendingWrite.

(** [_onClose] *)
Definition _onClose : M unit :=
  _maybeProcessPendingWrite ;;
  destroy (Some (mkError "connection closed")).

(** [_onError] *)
Definition _onError (event : ErrorEvent) : M unit :=
  _maybeProcessPendingWrite ;;
  destroy (Some (mkError (match event with
                          | Some m => m
                          | None => "connection refused"
                          end))).

(** [_onMessage] *)
Definition _onMessage (data : MessageData) : M unit :=
  emit (Push (match data with
              | DataArrayBuffer b => b
              | DataString str => utf8_encode str
              end)).

(** ** Construction *)

(** [new RTCStream(handle, options)], with [options.bufferSize] and
    [options.bufferTimeout] as given (absent as [None]). *)
Definition construct (h : Handle) (optBufferSize optBufferTimeout : option Z)
  : RTCStream * list Effect :=
  let '(openV, closedV) :=
    match kind h with
    | WebSocketKind OPEN CLOSED => (RSNum OPEN, RSNum CLOSED)
    | DataChannelKind => (RSStr "open", RSStr "closed")
    end in
  let s := {| bufferSize := match optBufferSize with Some n => n | None => 1024 * 512 end;
              bufferTimeout := match optBufferTimeout with Some n => n | None => 50 end;
              openStateValue := openV; closedStateValue := closedV;
              pendingWriteBuffer := None; pendingWriteCallback := None;
              listeners := [EvOpen; EvClose; EvError; EvMessage];
              destroyed := false |} in
  let tick :=
    if rs_eqb (readyState h) openV then [NextTick EvOpen]
    else if rs_eqb (readyState h) closedV then [NextTick EvClose]
    else [] in
  (s, [AddListener EvOpen; AddListener EvClose; AddListener EvError;
       AddListener EvMessage] ++ tick).

(** ** Every entry point of the adapter *)

Inductive Op :=
| OpWritev (chunks : list Chunk) (cb : WriteCallback)
| OpWrite (chunk : Chunk) (cb : WriteCallback)
| OpRetry                                  (* a [setTimeout] retry firing *)
| OpOpen
| OpClose
| OpError (event : ErrorEvent)
| OpMessage (data : MessageData)
| OpDestroy (error : option Error).

Definition run_op (o : Op) : M unit :=
  match o with
  | OpWritev chunks cb => _writev chunks cb
  | OpWrite chunk cb => _write chunk cb
  | OpRetry => _maybeProcessPendingWrite
  | OpOpen => _onOpen
  | OpClose => _onClose
  | OpError ev => _onError ev
  | OpMessage d => _onMessage d
  | OpDestroy e => destroy e
  end.

Definition state_of {A} (r : Result A * RTCStream * list Effect) : RTCStream :=
  let '(_, s, _) := r in s.
Definition effects_of {A} (r : Result A * RTCStream * list Effect) : list Effect :=
  let '(_, _, t) := r in t.

(** States reachable from construction by any sequence of entry points,
    each observing the handle as it is at that moment. *)
Inductive reachable : RTCStream -> Prop :=
| reach_construct h b t : reachable (fst (construct h b t))
| reach_op s o h : reachable s -> reachable (state_of (run_op o h s)).

(** ** Derived notions used in the statements *)

(** Both pending fields cleared, as [_finishPendingWrite] leaves them. *)
Definition cleared (s : RTCStream) : RTCStream :=
  set_pendingWriteCallback None (set_pendingWriteBuffer None s).

(** [bufferSize - handle.bufferedAmount] *)
Definition headroom (s : RTCStream) (h : Handle) : Z :=
  bufferSize s - bufferedAmount h.

Definition sentinels_distinct (s : RTCStream) : Prop :=
  rs_eqb (openStateValue s) (closedStateValue s) = false.

(** The two pending fields are both set or both absent. *)
Definition paired (s : RTCStream) : Prop :=
  pendingWriteBuffer s = None <-> pendingWriteCallback s = None.

(** The bytes of all [send] calls of an effect log, in call order. *)
Definition sent_bytes (t : list Effect) : Buffer :=
  List.concat (map (fun e => match e with Send ch => ch | _ => [] end) t).

(** The write-callback invocations of an effect log, in order. *)
Definition callback_calls (t : list Effect) : list (WriteCallback * option Error) :=
  List.concat (map (fun e => match e with
                             | CallWriteCallback c err => [(c, err)]
                             | _ => []
                             end) t).

Definition has_retry (t : list Effect) : bool :=
  existsb (fun e => match e with SetTimeoutRetry _ => true | _ => false end) t.

Definition pending_bytes (s : RTCStream) : Buffer :=
  match pendingWriteBuffer s with Some b => b | None => [] end.

(** A sequence of retries ([setTimeout] firings), the k-th observing the
    k-th handle. *)
Fixpoint run_retries (hs : list Handle) (s : RTCStream) : RTCStream * list Effect :=
  match hs with
  | [] => (s, [])
  | h :: hs' =>
    let '(_, s1, t1) := _maybeProcessPendingWrite h s in
    let '(s2, t2) := run_retries hs' s1 in (s2, t1 ++ t2)
  end.

(** A sequence of entry points, each observing its handle. *)
Fixpoint run_ops (os : list (Op * Handle)) (s : RTCStream) : RTCStream * list Effect :=
  match os with
  | [] => (s, [])
  | (o, h) :: os' =>
    let '(_, s1, t1) := run_op o h s in
    let '(s2, t2) := run_ops os' s1 in (s2, t1 ++ t2)
  end.

(** ** Basic facts *)

Lemma rs_eqb_refl x : rs_eqb x x = true.
Proof. destruct x; simpl; [apply Z.eqb_refl | apply String.eqb_refl]. Qed.

Lemma rs_eqb_eq x y : rs_eqb x y = true -> x = y.
Proof.
  destruct x, y; simpl; try discriminate; intros H.
  - apply Z.eqb_eq in H; subst; reflexivity.
  - apply String.eqb_eq in H; subst; reflexivity.
Qed.

Lemma slice_prefix b k :
  0 <= k <= Z.of_nat (List.length b) -> slice b 0 k = firstn (Z.to_nat k) b.
Proof.
  intros Hk. unfold slice, slice_index.
  replace (0 <? 0) with false by reflexivity.
  replace (k <? 0) with false by (symmetry; apply Z.ltb_ge; lia).
  rewrite Z.min_l by lia. rewrite Z.min_l by lia.
  rewrite Z.sub_0_r. reflexivity.
Qed.

Lemma slice_suffix b k :
  0 <= k <= Z.of_nat (List.length b) -> slice_from b k = skipn (Z.to_nat k) b.
Proof.
  intros Hk. unfold slice_from, slice, slice_index.
  replace (k <? 0) with false by (symmetry; apply Z.ltb_ge; lia).
  replace (Z.of_nat (List.length b) <? 0) with false by (symmetry; apply Z.ltb_ge; lia).
  rewrite Z.min_id. rewrite (Z.min_l k) by lia.
  apply firstn_all2. rewrite length_skipn. lia.
Qed.

Lemma finish_some e h s c :
  pendingWriteCallback s = Some c ->
  _finishPendingWrite e h s = (Ok tt, cleared s, [CallWriteCallback c e]).
Proof.
  intros Hc. unfold _finishPendingWrite, _finishPendingWrite_with, invoke_callback. cbn.
  rewrite Hc. reflexivity.
Qed.

(** ** [_maybeProcessPendingWrite], branch by branch *)

Ltac unfold_monad :=
  unfold _maybeProcessPendingWrite, _finishPendingWrite, _finishPendingWrite_with,
    invoke_callback, send, try_catch,
    modify, bind, get, put, handle, ret, emit, throw; cbn.

(** The chunk sent for a headroom [k]. *)
Definition chunk_for (b : Buffer) (k : Z) : Buffer :=
  if Z.of_nat (List.length b) >? k then slice b 0 k else b.

Lemma maybe_no_pending h s :
  pendingWriteCallback s = None ->
  _maybeProcessPendingWrite h s = (Ok tt, s, []).
Proof. intros Hc. unfold_monad. rewrite Hc. reflexivity. Qed.

Lemma maybe_closed h s c :
  pendingWriteCallback s = Some c ->
  rs_eqb (readyState h) (closedStateValue s) = true ->
  _maybeProcessPendingWrite h s =
    (Ok tt, cleared s, [CallWriteCallback c (Some (mkError "not connected"))]).
Proof. intros Hc Hcl. unfold_monad. rewrite Hc, Hcl. cbn. rewrite Hc. reflexivity. Qed.

Lemma maybe_not_open h s c :
  pendingWriteCallback s = Some c ->
  rs_eqb (readyState h) (closedStateValue s) = false ->
  rs_eqb (readyState h) (openStateValue s) = false ->
  _maybeProcessPendingWrite h s = (Ok tt, s, []).
Proof. intros Hc Hcl Hop. unfold_monad. rewrite Hc, Hcl, Hop. reflexivity. Qed.

Lemma maybe_no_space h s c :
  pendingWriteCallback s = Some c ->
  rs_eqb (readyState h) (closedStateValue s) = false ->
  rs_eqb (readyState h) (openStateValue s) = true ->
  headroom s h = 0 ->
  _maybeProcessPendingWrite h s = (Ok tt, s, [SetTimeoutRetry (bufferTimeout s)]).
Proof.
  intros Hc Hcl Hop Hk. unfold headroom in Hk. unfold_monad.
  rewrite Hc, Hcl, Hop. cbn. rewrite Hk. reflexivity.
Qed.

Lemma maybe_no_buffer h s c :
  pendingWriteCallback s = Some c ->
  rs_eqb (readyState h) (closedStateValue s) = false ->
  rs_eqb (readyState h) (openStateValue s) = true ->
  headroom s h <> 0 ->
  pendingWriteBuffer s = None ->
  _maybeProcessPendingWrite h s = (Throw TypeError, s, []).
Proof.
  intros Hc Hcl Hop Hk Hb. unfold headroom in Hk. unfold_monad.
  rewrite Hc, Hcl, Hop. cbn. rewrite (proj2 (Z.eqb_neq _ _) Hk), Hb. reflexivity.
Qed.

Lemma maybe_send_throws h s c b e :
  pendingWriteCallback s = Some c ->
  rs_eqb (readyState h) (closedStateValue s) = false ->
  rs_eqb (readyState h) (openStateValue s) = true ->
  headroom s h <> 0 ->
  pendingWriteBuffer s = Some b ->
  sendThrows h = Some e ->
  _maybeProcessPendingWrite h s =
    (Ok tt, cleared s, [Send (chunk_for b (headroom s h)); CallWriteCallback c (Some e)]).
Proof.
  intros Hc Hcl Hop Hk Hb He. unfold headroom in *. unfold_monad.
  rewrite Hc, Hcl, Hop. cbn. rewrite (proj2 (Z.eqb_neq _ _) Hk), Hb.
  unfold chunk_for.
  destruct (Z.of_nat (List.length b) >? bufferSize s - bufferedAmount h);
    cbn; rewrite He; cbn; rewrite Hc; reflexivity.
Qed.

Lemma maybe_partial h s c b :
  pendingWriteCallback s = Some c ->
  rs_eqb (readyState h) (closedStateValue s) = false ->
  rs_eqb (readyState h) (openStateValue s) = true ->
  headroom s h <> 0 ->
  pendingWriteBuffer s = Some b ->
  sendThrows h = None ->
  Z.of_nat (List.length b) > headroom s h ->
  _maybeProcessPendingWrite h s =
    (Ok tt, set_pendingWriteBuffer (Some (slice_from b (headroom s h))) s,
     [Send (slice b 0 (headroom s h)); SetTimeoutRetry (bufferTimeout s)]).
Proof.
  intros Hc Hcl Hop Hk Hb He Hlen. unfold headroom in *. unfold_monad.
  rewrite Hc, Hcl, Hop. cbn. rewrite (proj2 (Z.eqb_neq _ _) Hk), Hb.
  replace (Z.of_nat (List.length b) >? bufferSize s - bufferedAmount h) with true
    by (symmetry; apply Z.gtb_lt; lia).
  cbn. rewrite He. reflexivity.
Qed.

Lemma maybe_complete h s c b :
  pendingWriteCallback s = Some c ->
  rs_eqb (readyState h) (closedStateValue s) = false ->
  rs_eqb (readyState h) (openStateValue s) = true ->
  headroom s h <> 0 ->
  pendingWriteBuffer s = Some b ->
  sendThrows h = None ->
  Z.of_nat (List.length b) <= headroom s h ->
  _maybeProcessPendingWrite h s =
    (Ok tt, cleared s, [Send b; CallWriteCallback c None]).
Proof.
  intros Hc Hcl Hop Hk Hb He Hlen. unfold headroom in *. unfold_monad.
  rewrite Hc, Hcl, Hop. cbn. rewrite (proj2 (Z.eqb_neq _ _) Hk), Hb.
  replace (Z.of_nat (List.length b) >? bufferSize s - bufferedAmount h) with false
    by (symmetry; rewrite Z.gtb_ltb; apply Z.ltb_ge; lia).
  cbn. rewrite He. cbn. rewrite Hc. reflexivity.
Qed.

(** ** Advancing under a healthy open transport *)

(** The transport is open and has room ([readyState === openStateValue]
    and [bufferSize - bufferedAmount > 0]). *)
Definition open_with_headroom (s : RTCStream) (h : Handle) : Prop :=
  readyState h = openStateValue s /\ 0 < headroom s h.

(** ... and its [send] does not raise. *)
Definition good_handle (s : RTCStream) (h : Handle) : Prop :=
  open_with_headroom s h /\ sendThrows h = None.

Lemma open_flags s h :
  sentinels_distinct s -> readyState h = openStateValue s ->
  rs_eqb (readyState h) (closedStateValue s) = false /\
  rs_eqb (readyState h) (openStateValue s) = true.
Proof. unfold sentinels_distinct. intros Hd Ho. rewrite Ho, rs_eqb_refl. auto. Qed.

Lemma maybe_good_partial h s c b :
  sentinels_distinct s -> good_handle s h ->
  pendingWriteCallback s = Some c -> pendingWriteBuffer s = Some b ->
  headroom s h < Z.of_nat (List.length b) ->
  _maybeProcessPendingWrite h s =
    (Ok tt, set_pendingWriteBuffer (Some (skipn (Z.to_nat (headroom s h)) b)) s,
     [Send (firstn (Z.to_nat (headroom s h)) b); SetTimeoutRetry (bufferTimeout s)]).
Proof.
  intros Hd [[Ho Hk] He] Hc Hb Hlt. destruct (open_flags s h Hd Ho) as [F1 F2].
  rewrite (maybe_partial h s c b) by (auto; lia).
  rewrite slice_prefix, slice_suffix by lia. reflexivity.
Qed.

Lemma maybe_good_complete h s c b :
  sentinels_distinct s -> good_handle s h ->
  pendingWriteCallback s = Some c -> pendingWriteBuffer s = Some b ->
  Z.of_nat (List.length b) <= headroom s h ->
  _maybeProcessPendingWrite h s = (Ok tt, cleared s, [Send b; CallWriteCallback c None]).
Proof.
  intros Hd [[Ho Hk] He] Hc Hb Hle. destruct (open_flags s h Hd Ho) as [F1 F2].
  apply (maybe_complete h s c b); auto; lia.
Qed.

Lemma sent_bytes_app t1 t2 : sent_bytes (t1 ++ t2) = sent_bytes t1 ++ sent_bytes t2.
Proof. unfold sent_bytes. rewrite map_app, concat_app. reflexivity. Qed.

Lemma callback_calls_app t1 t2 :
  callback_calls (t1 ++ t2) = callback_calls t1 ++ callback_calls t2.
Proof. unfold callback_calls. rewrite map_app, concat_app. reflexivity. Qed.

Lemma run_retries_idle hs s :
  pendingWriteCallback s = None -> run_retries hs s = (s, []).
Proof.
  intros Hc. induction hs as [|h hs IH]; cbn [run_retries]; [reflexivity|].
  rewrite maybe_no_pending by exact Hc. rewrite IH. reflexivity.
Qed.

Lemma good_handle_set_buffer s x h :
  good_handle (set_pendingWriteBuffer x s) h <-> good_handle s h.
Proof. reflexivity. Qed.

(** Retries under a healthy transport deliver the whole pending buffer, in
    order, then complete the write once: each retry sends at least one
    byte, so one retry more than the buffer has bytes is enough. *)
Lemma retries_deliver hs s c b :
  sentinels_distinct s ->
  pendingWriteCallback s = Some c -> pendingWriteBuffer s = Some b ->
  Forall (good_handle s) hs -> (List.length b < List.length hs)%nat ->
  exists t, run_retries hs s = (cleared s, t) /\
            sent_bytes t = b /\ callback_calls t = [(c, None)].
Proof.
  revert s b. induction hs as [|h hs IH]; intros s b Hd Hc Hb Hg Hlen;
    cbn in Hlen; [lia|].
  inversion Hg as [|? ? Hh Hhs]; subst.
  destruct (Z_lt_le_dec (headroom s h) (Z.of_nat (List.length b))) as [Hlt|Hle].
  - cbn [run_retries]. rewrite (maybe_good_partial h s c b) by assumption.
    set (s1 := set_pendingWriteBuffer (Some (skipn (Z.to_nat (headroom s h)) b)) s).
    assert (Hg1 : Forall (good_handle s1) hs).
    { eapply Forall_impl; [|exact Hhs]. intros x Hx. apply good_handle_set_buffer, Hx. }
    assert (Hl1 : (List.length (skipn (Z.to_nat (headroom s h)) b) < List.length hs)%nat).
    { rewrite length_skipn. destruct Hh as [[_ Hk] _]. lia. }
    destruct (IH s1 (skipn (Z.to_nat (headroom s h)) b) Hd Hc eq_refl Hg1 Hl1)
      as [t [Ht [Hs Hcb]]].
    rewrite Ht. exists ([Send (firstn (Z.to_nat (headroom s h)) b);
                         SetTimeoutRetry (bufferTimeout s)] ++ t).
    split; [reflexivity|]. split.
      * rewrite sent_bytes_app, Hs. cbn. rewrite app_nil_r. apply firstn_skipn.
      * rewrite callback_calls_app, Hcb. reflexivity.
  - cbn [run_retries]. rewrite (maybe_good_complete h s c b) by assumption.
    rewrite run_retries_idle by reflexivity.
    exists [Send b; CallWriteCallback c None]. split; [reflexivity|].
    cbn. rewrite !app_nil_r. auto.
Qed.

(** The same, with the place of the completion: all sends come first and
    the callback's single [null] invocation closes the log. *)
Lemma retries_deliver_last hs s c b :
  sentinels_distinct s ->
  pendingWriteCallback s = Some c -> pendingWriteBuffer s = Some b ->
  Forall (good_handle s) hs -> (List.length b < List.length hs)%nat ->
  exists t, run_retries hs s = (cleared s, t ++ [CallWriteCallback c None]) /\
            sent_bytes t = b /\ callback_calls t = [].
Proof.
  revert s b. induction hs as [|h hs IH]; intros s b Hd Hc Hb Hg Hlen;
    cbn in Hlen; [lia|].
  inversion Hg as [|? ? Hh Hhs]; subst.
  destruct (Z_lt_le_dec (headroom s h) (Z.of_nat (List.length b))) as [Hlt|Hle].
  - cbn [run_retries]. rewrite (maybe_good_partial h s c b) by assumption.
    set (s1 := set_pendingWriteBuffer (Some (skipn (Z.to_nat (headroom s h)) b)) s).
    assert (Hg1 : Forall (good_handle s1) hs).
    { eapply Forall_impl; [|exact Hhs]. intros x Hx. apply good_handle_set_buffer, Hx. }
    assert (Hl1 : (List.length (skipn (Z.to_nat (headroom s h)) b) < List.length hs)%nat).
    { rewrite length_skipn. destruct Hh as [[_ Hk] _]. lia. }
    destruct (IH s1 (skipn (Z.to_nat (headroom s h)) b) Hd Hc eq_refl Hg1 Hl1)
      as [t [Ht [Hs Hcb]]].
    rewrite Ht. exists ([Send (firstn (Z.to_nat (headroom s h)) b);
                         SetTimeoutRetry (bufferTimeout s)] ++ t).
    split; [rewrite <- app_assoc; reflexivity|]. split.
      * rewrite sent_bytes_app, Hs. cbn. rewrite app_nil_r. apply firstn_skipn.
      * rewrite callback_calls_app, Hcb. reflexivity.
  - cbn [run_retries]. rewrite (maybe_good_complete h s c b) by assumption.
    rewrite run_retries_idle by reflexivity.
    exists [Send b]. split; [reflexivity|].
    cbn. rewrite !app_nil_r. auto.
Qed.

(** ** The duplex layer driving the write side

    The duplex layer hands over one write at a time: the next [_writev]
    comes only once the previous write's callback has run and no retry is
    scheduled; a scheduled retry fires later.  Each call observes the
    handle as it is then, constrained by [ok]. *)
Record Host := mkHost {
  host_stream : RTCStream;
  host_timer : bool;                                (* a retry is scheduled *)
  host_todo : list (list Chunk * WriteCallback);    (* writes not yet handed over *)
  host_log : list Effect
}.

Definition host_after (r : Result unit * RTCStream * list Effect)
    (todo : list (list Chunk * WriteCallback)) (log : list Effect) : Host :=
  mkHost (state_of r) (has_retry (effects_of r)) todo (log ++ effects_of r).

Inductive host_step (ok : RTCStream -> Handle -> Prop) : Host -> Host -> Prop :=
| host_write s chs cb rest log h :
    pendingWriteCallback s = None -> ok s h ->
    host_step ok (mkHost s false ((chs, cb) :: rest) log)
                 (host_after (_writev chs cb h s) rest log)
| host_retry s todo log h :
    ok s h ->
    host_step ok (mkHost s true todo log)
                 (host_after (_maybeProcessPendingWrite h s) todo log).

Inductive host_steps (ok : RTCStream -> Handle -> Prop) : Host -> Host -> Prop :=
| host_done c : host_steps ok c c
| host_more c1 c2 c3 : host_step ok c1 c2 -> host_steps ok c2 c3 -> host_steps ok c1 c3.

Definition writes_bytes (ws : list (list Chunk * WriteCallback)) : Buffer :=
  List.concat (map (fun w => concat_chunks (fst w)) ws).

(** The state [_writev] installs before advancing. *)
Definition install (chunks : list Chunk) (cb : WriteCallback) (s : RTCStream) : RTCStream :=
  set_pendingWriteCallback (Some cb) (set_pendingWriteBuffer (Some (concat_chunks chunks)) s).

Lemma modify_then {A} f (k : M A) h s : (modify f ;; k) h s = k h (f s).
Proof.
  unfold modify, bind, get, put. cbn.
  destruct (k h (f s)) as [[r s2] t2]. reflexivity.
Qed.

Lemma writev_unfold chunks cb h s :
  _writev chunks cb h s = _maybeProcessPendingWrite h (install chunks cb s).
Proof. unfold _writev. rewrite !modify_then. reflexivity. Qed.

(** One advance under a healthy open transport keeps the pair together and
    moves bytes from the pending buffer to [send], in order. *)
Lemma maybe_good_progress h s :
  paired s -> sentinels_distinct s -> good_handle s h ->
  let r := _maybeProcessPendingWrite h s in
  paired (state_of r) /\ sentinels_distinct (state_of r) /\
  sent_bytes (effects_of r) ++ pending_bytes (state_of r) = pending_bytes s.
Proof.
  intros Hp Hd Hg. cbn zeta.
  destruct (pendingWriteCallback s) as [c|] eqn:Hc.
  - destruct (pendingWriteBuffer s) as [b|] eqn:Hb;
      [| exfalso; apply Hp in Hb; congruence].
    destruct (Z_lt_le_dec (headroom s h) (Z.of_nat (List.length b))) as [Hlt|Hle].
    + rewrite (maybe_good_partial h s c b) by assumption. cbn.
      unfold paired, pending_bytes; cbn. rewrite Hb, Hc.
      repeat split; try discriminate; auto.
      rewrite app_nil_r. apply firstn_skipn.
    + rewrite (maybe_good_complete h s c b) by assumption. cbn.
      unfold paired, pending_bytes; cbn. rewrite Hb.
      repeat split; auto. rewrite !app_nil_r. reflexivity.
  - rewrite maybe_no_pending by exact Hc. cbn. auto.
Qed.

Definition host_inv (all : Buffer) (c : Host) : Prop :=
  paired (host_stream c) /\ sentinels_distinct (host_stream c) /\
  sent_bytes (host_log c) ++ pending_bytes (host_stream c) ++ writes_bytes (host_todo c)
    = all.

Lemma host_step_inv all c1 c2 :
  host_step good_handle c1 c2 -> host_inv all c1 -> host_inv all c2.
Proof.
  intros Hs [Hp [Hd Hall]]. destruct Hs as [s chs cb rest log h Hc Hg | s todo log h Hg];
    unfold host_inv, host_after; cbn [host_stream host_log host_todo] in *.
  - assert (Hb : pendingWriteBuffer s = None) by (apply Hp; exact Hc).
    rewrite writev_unfold.
    assert (Hp' : paired (install chs cb s)) by (split; discriminate).
    destruct (maybe_good_progress h (install chs cb s) Hp' Hd Hg) as [P1 [P2 P3]].
    repeat split; try apply P1; try exact P2.
    rewrite sent_bytes_app, <- app_assoc, (app_assoc (sent_bytes (effects_of _))), P3.
    rewrite <- Hall. unfold pending_bytes. rewrite Hb. reflexivity.
  - destruct (maybe_good_progress h s Hp Hd Hg) as [P1 [P2 P3]].
    repeat split; try apply P1; try exact P2.
    rewrite sent_bytes_app, <- app_assoc, (app_assoc (sent_bytes (effects_of _))), P3.
    exact Hall.
Qed.

Lemma host_steps_inv all c1 c2 :
  host_steps good_handle c1 c2 -> host_inv all c1 -> host_inv all c2.
Proof.
  induction 1 as [c|c1 c2 c3 Hs _ IH]; auto.
  intros H. apply IH. eapply host_step_inv; eauto.
Qed.

(** ** Running sequenced code *)

Lemma bind_ok {A B} (m : M A) (k : A -> M B) h s a s1 t1 :
  m h s = (Ok a, s1, t1) ->
  bind m k h s = let '(r, s2, t2) := k a h s1 in (r, s2, t1 ++ t2).
Proof. intros Hm. unfold bind. rewrite Hm. reflexivity. Qed.

Lemma bind_state {A B} (m : M A) (k : A -> M B) h s :
  state_of (bind m k h s) =
    match m h s with
    | (Ok a, s1, _) => state_of (k a h s1)
    | (Throw _, s1, _) => s1
    end.
Proof.
  unfold bind. destruct (m h s) as [[[a|e] s1] t1]; [|reflexivity].
  destruct (k a h s1) as [[r s2] t2]. reflexivity.
Qed.

Lemma bind_effects {A B} (m : M A) (k : A -> M B) h s :
  effects_of (bind m k h s) =
    match m h s with
    | (Ok a, s1, t1) => t1 ++ effects_of (k a h s1)
    | (Throw _, _, t1) => t1
    end.
Proof.
  unfold bind. destruct (m h s) as [[[a|e] s1] t1]; [|reflexivity].
  destruct (k a h s1) as [[r s2] t2]. reflexivity.
Qed.

(** ** Every outcome of [_maybeProcessPendingWrite] *)

Inductive maybe_outcome (h : Handle) (s : RTCStream) : Prop :=
| out_idle :
    _maybeProcessPendingWrite h s = (Ok tt, s, []) -> maybe_outcome h s
| out_poll :
    _maybeProcessPendingWrite h s = (Ok tt, s, [SetTimeoutRetry (bufferTimeout s)]) ->
    maybe_outcome h s
| out_finish c e pre :
    pendingWriteCallback s = Some c -> callback_calls pre = [] ->
    _maybeProcessPendingWrite h s = (Ok tt, cleared s, pre ++ [CallWriteCallback c e]) ->
    maybe_outcome h s
| out_partial c r ch :
    pendingWriteCallback s = Some c ->
    _maybeProcessPendingWrite h s =
      (Ok tt, set_pendingWriteBuffer (Some r) s,
       [Send ch; SetTimeoutRetry (bufferTimeout s)]) ->
    maybe_outcome h s
| out_type_error c :
    pendingWriteCallback s = Some c -> pendingWriteBuffer s = None ->
    _maybeProcessPendingWrite h s = (Throw TypeError, s, []) ->
    maybe_outcome h s.

Lemma maybe_outcomes h s : maybe_outcome h s.
Proof.
  destruct (pendingWriteCallback s) as [c|] eqn:Hc;
    [| apply out_idle, maybe_no_pending, Hc].
  destruct (rs_eqb (readyState h) (closedStateValue s)) eqn:Hcl.
  { apply (out_finish h s c (Some (mkError "not connected")) []); auto.
    apply (maybe_closed h s c); auto. }
  destruct (rs_eqb (readyState h) (openStateValue s)) eqn:Hop;
    [| apply out_idle, (maybe_not_open h s c); auto].
  destruct (Z.eq_dec (headroom s h) 0) as [Hk|Hk];
    [apply out_poll, (maybe_no_space h s c); auto|].
  destruct (pendingWriteBuffer s) as [b|] eqn:Hb;
    [| apply (out_type_error h s c); auto; apply (maybe_no_buffer h s c); auto].
  destruct (sendThrows h) as [e|] eqn:He.
  { apply (out_finish h s c (Some e) [Send (chunk_for b (headroom s h))]); auto.
    apply (maybe_send_throws h s c b e); auto. }
  destruct (Z_lt_le_dec (headroom s h) (Z.of_nat (List.length b))).
  - apply (out_partial h s c (slice_from b (headroom s h)) (slice b 0 (headroom s h))); auto.
    apply (maybe_partial h s c b); auto; lia.
  - apply (out_finish h s c None [Send b]); auto.
    apply (maybe_complete h s c b); auto.
Qed.

(** ** Teardown *)

Definition destroy_effects (error : option Error) : list Effect :=
  [RemoveListener EvMessage; RemoveListener EvError; RemoveListener EvClose;
   RemoveListener EvOpen; CloseHandle; DestroyCallback error].

Definition torn_down (s : RTCStream) : RTCStream :=
  set_listeners [] (set_destroyed true s).

Lemma filter_all_events l :
  filter (fun x => negb (EventName_eqb x EvOpen))
    (filter (fun x => negb (EventName_eqb x EvClose))
      (filter (fun x => negb (EventName_eqb x EvError))
        (filter (fun x => negb (EventName_eqb x EvMessage)) l))) = [].
Proof. induction l as [|[] l IH]; cbn; auto. Qed.

Lemma destroy_fresh e h s :
  destroyed s = false ->
  destroy e h s = (Ok tt, torn_down s, destroy_effects e).
Proof.
  intros Hd. unfold destroy, _destroy, removeEventListener, modify, bind, get, put,
    emit, ret. cbn. rewrite Hd. cbn. rewrite filter_all_events. reflexivity.
Qed.

Lemma destroy_again e h s :
  destroyed s = true -> destroy e h s = (Ok tt, s, []).
Proof. intros Hd. unfold destroy, bind, get, ret. cbn. rewrite Hd. reflexivity. Qed.

(** ** Concrete transports and streams used by the witnesses *)

Definition dc_handle (rs : string) (buffered : Z) (thr : option Error) : Handle :=
  mkHandle DataChannelKind (RSStr rs) buffered thr.

(** [RTCStream] over an [RTCDataChannel] still connecting at construction. *)
Definition demo_stream (size : Z) : RTCStream :=
  fst (construct (dc_handle "connecting" 0 None) (Some size) None).

Definition bytes_upto (n : nat) : Buffer := map byte_of_Z (map Z.of_nat (seq 0 n)).

Definition send_error : Error := mkError "send failed".

Definition demo_writes : list (list Chunk * WriteCallback) :=
  [([ChunkBuffer (bytes_upto 15)], 1%nat); ([ChunkString [104; 233]], 2%nat)].

Definition demo_run1 : Host :=
  host_after (_writev [ChunkBuffer (bytes_upto 15)] 1%nat (dc_handle "open" 0 None)
                      (demo_stream 10))
             [([ChunkString [104; 233]], 2%nat)] [].
Definition demo_run2 : Host :=
  host_after (_maybeProcessPendingWrite (dc_handle "open" 4 None) (host_stream demo_run1))
             (host_todo demo_run1) (host_log demo_run1).
Definition demo_run3 : Host :=
  host_after (_writev [ChunkString [104; 233]] 2%nat (dc_handle "open" 5 None)
                      (host_stream demo_run2))
             [] (host_log demo_run2).

Definition raising_run : Host :=
  host_after (_writev [ChunkBuffer [x01; x02]] 1%nat (dc_handle "open" 0 (Some send_error))
                      (demo_stream 1))
             [] [].

Example utf8_e_acute : utf8_encode [233] = [xc3; xa9].
Proof. reflexivity. Qed.

Example utf8_surrogate_pair : utf8_encode [55357; 56832] = [xf0; x9f; x98; x80].
Proof. reflexivity. Qed.

(** ** The claims *)

(** C1 (as amended).  Writes handed over one at a time by the duplex layer,
    while at every advance attempt the transport's [readyState] is the open
    sentinel, the headroom [bufferSize - bufferedAmount] is positive and
    [send] does not raise: once all writes have completed, the buffers
    passed to [send], concatenated in call order, are the concatenation of
    the submitted writes in submission order. *)
Theorem writes_sent_in_submission_order ws a0 c :
  pendingWriteCallback a0 = None -> pendingWriteBuffer a0 = None ->
  sentinels_distinct a0 ->
  host_steps good_handle (mkHost a0 false ws []) c ->
  host_todo c = [] -> pendingWriteCallback (host_stream c) = None ->
  sent_bytes (host_log c) = writes_bytes ws.
Proof.
  intros Hc0 Hb0 Hd0 Hrun Htodo Hc.
  assert (Hinv : host_inv (writes_bytes ws) c).
  { eapply host_steps_inv; [exact Hrun|].
    unfold host_inv. cbn. unfold paired, pending_bytes. rewrite Hb0, Hc0.
    repeat split; auto. }
  destruct Hinv as [Hp [_ Hall]].
  assert (Hb : pendingWriteBuffer (host_stream c) = None) by (apply Hp; exact Hc).
  rewrite Htodo in Hall. unfold pending_bytes in Hall. rewrite Hb in Hall.
  cbn in Hall. rewrite app_nil_r in Hall. exact Hall.
Qed.

Lemma writes_sent_in_submission_order_witness :
  host_steps good_handle (mkHost (demo_stream 10) false demo_writes []) demo_run3 /\
  sent_bytes (host_log demo_run3) = writes_bytes demo_writes.
Proof.
  assert (Hrun : host_steps good_handle (mkHost (demo_stream 10) false demo_writes [])
                            demo_run3).
  { apply (host_more _ _ demo_run1).
    { apply host_write; [reflexivity|]. repeat split; vm_compute; reflexivity. }
    apply (host_more _ _ demo_run2).
    { change demo_run1 with (mkHost (host_stream demo_run1) true
                                    (host_todo demo_run1) (host_log demo_run1)).
      apply host_retry. repeat split; vm_compute; reflexivity. }
    apply (host_more _ _ demo_run3); [|apply host_done].
    change demo_run2 with (mkHost (host_stream demo_run2) false
                                  [([ChunkString [104; 233]], 2%nat)] (host_log demo_run2)).
    apply host_write; [vm_compute; reflexivity|]. repeat split; vm_compute; reflexivity. }
  split; [exact Hrun|].
  apply (writes_sent_in_submission_order demo_writes (demo_stream 10) demo_run3);
    try reflexivity; try exact Hrun; vm_compute; reflexivity.
Defined.

(** C1 as stated fails: with the transport open and positive headroom but a
    [send] that raises, the write fails after its first chunk, and the bytes
    passed to [send] are only a prefix of what was submitted. *)
Lemma writes_sent_in_order_fails_on_raising_send :
  host_steps open_with_headroom
    (mkHost (demo_stream 1) false [([ChunkBuffer [x01; x02]], 1%nat)] []) raising_run /\
  host_todo raising_run = [] /\ pendingWriteCallback (host_stream raising_run) = None /\
  sent_bytes (host_log raising_run) = [x01] /\
  sent_bytes (host_log raising_run) <> writes_bytes [([ChunkBuffer [x01; x02]], 1%nat)].
Proof.
  split.
  - apply (host_more _ _ raising_run); [|apply host_done].
    apply host_write; [reflexivity|]. split; vm_compute; reflexivity.
  - vm_compute. repeat split; try reflexivity. discriminate.
Qed.

Lemma maybe_ok_frame h s :
  paired s ->
  exists s' t, _maybeProcessPendingWrite h s = (Ok tt, s', t) /\
               destroyed s' = destroyed s /\ listeners s' = listeners s.
Proof.
  intros Hp. destruct (maybe_outcomes h s) as [E|E|c e pre _ _ E|c r ch _ E|c Hc Hb _].
  - exists s, []. auto.
  - exists s, [SetTimeoutRetry (bufferTimeout s)]. auto.
  - exists (cleared s), (pre ++ [CallWriteCallback c e]). auto.
  - exists (set_pendingWriteBuffer (Some r) s), [Send ch; SetTimeoutRetry (bufferTimeout s)].
    auto.
  - exfalso. apply Hp in Hb. congruence.
Qed.

(** C2 (as amended).  If the headroom is positive and smaller than the
    pending buffer and [send] does not raise, one advance sends exactly the
    headroom-sized prefix, keeps exactly the rest as the pending buffer
    (callback unchanged) and schedules a retry after [bufferTimeout]; then
    retries under such a transport send the rest, and the bytes sent in all
    add up to the original buffer, in order, and only after the last of
    them does the callback get [null], once. *)
Theorem partial_send_keeps_suffix_then_delivers s h c b :
  sentinels_distinct s ->
  pendingWriteCallback s = Some c -> pendingWriteBuffer s = Some b ->
  good_handle s h -> headroom s h < Z.of_nat (List.length b) ->
  _maybeProcessPendingWrite h s =
    (Ok tt, set_pendingWriteBuffer (Some (skipn (Z.to_nat (headroom s h)) b)) s,
     [Send (firstn (Z.to_nat (headroom s h)) b); SetTimeoutRetry (bufferTimeout s)]) /\
  (forall hs, Forall (good_handle s) hs -> (List.length b <= List.length hs)%nat ->
   exists t, run_retries (h :: hs) s = (cleared s, t ++ [CallWriteCallback c None]) /\
             sent_bytes t = b /\ callback_calls t = []).
Proof.
  intros Hd Hc Hb Hg Hlt. split.
  - apply (maybe_good_partial h s c b); assumption.
  - intros hs Hhs Hlen. apply retries_deliver_last; auto. cbn. lia.
Qed.

Definition demo_pending (n : nat) : RTCStream :=
  install [ChunkBuffer (bytes_upto n)] 1%nat (demo_stream 10).

Lemma partial_send_keeps_suffix_then_delivers_witness :
  _maybeProcessPendingWrite (dc_handle "open" 0 None) (demo_pending 15) =
    (Ok tt, set_pendingWriteBuffer (Some (skipn 10 (bytes_upto 15))) (demo_pending 15),
     [Send (firstn 10 (bytes_upto 15)); SetTimeoutRetry 50]).
Proof.
  apply (partial_send_keeps_suffix_then_delivers (demo_pending 15)
           (dc_handle "open" 0 None) 1%nat (bytes_upto 15));
    try reflexivity; repeat split; vm_compute; reflexivity.
Defined.

(** C2 as stated fails.  With [bufferedAmount] 13 over a [bufferSize] of 10
    the headroom is -3 (non-zero, smaller than the 10 pending bytes):
    [buffer.slice(0, -3)] sends 7 bytes and the last 3 stay pending.  And
    when [send] raises, nothing stays pending. *)
Lemma partial_send_fails_on_negative_headroom :
  0 <= bufferedAmount (dc_handle "open" 13 None) /\
  headroom (demo_pending 10) (dc_handle "open" 13 None) = -3 /\
  _maybeProcessPendingWrite (dc_handle "open" 13 None) (demo_pending 10) =
    (Ok tt, set_pendingWriteBuffer (Some (skipn 7 (bytes_upto 10))) (demo_pending 10),
     [Send (firstn 7 (bytes_upto 10)); SetTimeoutRetry 50]) /\
  List.length (firstn 7 (bytes_upto 10)) = 7%nat /\
  pendingWriteBuffer
    (state_of (_maybeProcessPendingWrite (dc_handle "open" 7 (Some send_error))
                                         (demo_pending 10))) = None.
Proof. vm_compute. repeat split; try reflexivity; discriminate. Qed.

(** C3.  A pending write meeting a [readyState] equal to the closed
    sentinel is failed once with a "not connected" error, both fields are
    cleared and [send] is not called. *)
Theorem closed_transport_fails_pending_write s h c b :
  pendingWriteCallback s = Some c -> pendingWriteBuffer s = Some b ->
  readyState h = closedStateValue s ->
  _maybeProcessPendingWrite h s =
    (Ok tt, cleared s, [CallWriteCallback c (Some (mkError "not connected"))]) /\
  pendingWriteBuffer (cleared s) = None /\ pendingWriteCallback (cleared s) = None.
Proof.
  intros Hc Hb Hrs. split; [|split; reflexivity].
  apply maybe_closed; [exact Hc|]. rewrite Hrs. apply rs_eqb_refl.
Qed.

Lemma closed_transport_fails_pending_write_witness :
  _maybeProcessPendingWrite (dc_handle "closed" 0 None) (demo_pending 4) =
    (Ok tt, cleared (demo_pending 4),
     [CallWriteCallback 1%nat (Some (mkError "not connected"))]).
Proof.
  apply (closed_transport_fails_pending_write (demo_pending 4) (dc_handle "closed" 0 None)
           1%nat (bytes_upto 4)); reflexivity.
Defined.

Definition error_message (event : ErrorEvent) : string :=
  match event with Some m => m | None => "connection refused" end.

(** C4, what the code does.  A close or error event reaching a not yet destroyed
    adapter runs the advance routine and then the destroy path once: the
    four listeners are removed, the transport is closed and the destroy
    callback gets "connection closed", or the event's message, or
    "connection refused".  When the [readyState] at the event is the closed
    sentinel, the pending write's callback gets a "not connected" error
    before all of this. *)
Theorem close_or_error_tears_down s h c :
  paired s -> pendingWriteCallback s = Some c -> destroyed s = false ->
  let m := _maybeProcessPendingWrite h s in
  _onClose h s =
    (Ok tt, torn_down (state_of m),
     effects_of m ++ destroy_effects (Some (mkError "connection closed"))) /\
  (forall ev, _onError ev h s =
    (Ok tt, torn_down (state_of m),
     effects_of m ++ destroy_effects (Some (mkError (error_message ev))))) /\
  (readyState h = closedStateValue s ->
   state_of m = cleared s /\
   effects_of m = [CallWriteCallback c (Some (mkError "not connected"))]).
Proof.
  intros Hp Hc Hd m.
  destruct (maybe_ok_frame h s Hp) as [s' [t [Em [Ed _]]]].
  split; [|split].
  - unfold _onClose. rewrite (bind_ok _ _ h s tt s' t Em).
    rewrite destroy_fresh by congruence. subst m. rewrite Em. reflexivity.
  - intros ev. unfold _onError. rewrite (bind_ok _ _ h s tt s' t Em).
    rewrite destroy_fresh by congruence. subst m. rewrite Em. reflexivity.
  - intros Hrs. subst m. rewrite maybe_closed with (c := c) by
      (auto; rewrite Hrs; apply rs_eqb_refl). auto.
Qed.

Lemma close_or_error_tears_down_witness :
  _onClose (dc_handle "closed" 0 None) (demo_pending 4) =
    (Ok tt, torn_down (cleared (demo_pending 4)),
     [CallWriteCallback 1%nat (Some (mkError "not connected"))]
       ++ destroy_effects (Some (mkError "connection closed"))).
Proof.
  assert (Hp : paired (demo_pending 4)) by (split; discriminate).
  destruct (close_or_error_tears_down (demo_pending 4) (dc_handle "closed" 0 None) 1%nat
              Hp eq_refl eq_refl) as [E [_ ST]].
  destruct (ST eq_refl) as [S T].
  rewrite E, S, T. reflexivity.
Defined.

(** C4 fails on the code: an [RTCDataChannel] fires [error] while its
    [readyState] is "closing"; the advance routine leaves the write alone,
    so the adapter is destroyed while the write's callback never ran and
    the write is left hanging. *)
Lemma close_or_error_may_leave_write_pending :
  _onError (Some "transport error"%string) (dc_handle "closing" 0 None) (demo_pending 4) =
    (Ok tt, torn_down (demo_pending 4),
     destroy_effects (Some (mkError "transport error"))) /\
  pendingWriteCallback (torn_down (demo_pending 4)) = Some 1%nat.
Proof. split; reflexivity. Qed.

(** ** The pending pair across every entry point *)

Lemma maybe_paired h s : paired s -> paired (state_of (_maybeProcessPendingWrite h s)).
Proof.
  intros Hp. destruct (maybe_outcomes h s) as [E|E|c e pre _ _ E|c r ch Hc E|c Hc Hb _];
    try (rewrite E; cbn; exact Hp).
  - rewrite E. cbn. split; reflexivity.
  - rewrite E. unfold paired. cbn. rewrite Hc. split; discriminate.
  - exfalso. apply Hp in Hb. congruence.
Qed.

Lemma destroy_pending e h s :
  pendingWriteBuffer (state_of (destroy e h s)) = pendingWriteBuffer s /\
  pendingWriteCallback (state_of (destroy e h s)) = pendingWriteCallback s /\
  callback_calls (effects_of (destroy e h s)) = [].
Proof.
  destruct (destroyed s) eqn:Hd.
  - rewrite destroy_again by exact Hd. auto.
  - rewrite destroy_fresh by exact Hd. auto.
Qed.

Lemma emit_then {A} e (k : M A) h s :
  (emit e ;; k) h s = let '(r, s2, t2) := k h s in (r, s2, [e] ++ t2).
Proof. reflexivity. Qed.

Lemma op_paired o h s : paired s -> paired (state_of (run_op o h s)).
Proof.
  intros Hp. destruct o as [chs cb|ch cb| | | |ev|d|e]; cbn [run_op].
  - rewrite writev_unfold. apply maybe_paired. split; discriminate.
  - unfold _write. rewrite writev_unfold. apply maybe_paired. split; discriminate.
  - apply maybe_paired, Hp.
  - unfold _onOpen. rewrite emit_then.
    pose proof (maybe_paired h s Hp) as P.
    destruct (_maybeProcessPendingWrite h s) as [[r s2] t2]. exact P.
  - unfold _onClose. rewrite bind_state.
    pose proof (maybe_paired h s Hp) as P.
    destruct (_maybeProcessPendingWrite h s) as [[[u|err] s1] t1]; cbn in P; [|exact P].
    destruct (destroy_pending (Some (mkError "connection closed")) h s1) as [B [C _]].
    unfold paired. rewrite B, C. exact P.
  - unfold _onError. rewrite bind_state.
    pose proof (maybe_paired h s Hp) as P.
    destruct (_maybeProcessPendingWrite h s) as [[[u|err] s1] t1]; cbn in P; [|exact P].
    destruct (destroy_pending (Some (mkError (match ev with
                                              | Some m => m
                                              | None => "connection refused"
                                              end))) h s1) as [B [C _]].
    unfold paired. rewrite B, C. exact P.
  - exact Hp.
  - destruct (destroy_pending e h s) as [B [C _]]. unfold paired. rewrite B, C. exact Hp.
Qed.

(** C5.  In every state reachable from construction through any sequence
    of entry points, the pending buffer is absent exactly when the pending
    callback is. *)
Theorem pending_pair_never_half_set s :
  reachable s -> pendingWriteBuffer s = None <-> pendingWriteCallback s = None.
Proof.
  induction 1 as [h b t|s o h _ IH].
  - unfold construct. destruct (kind h); cbn; split; reflexivity.
  - apply op_paired. exact IH.
Qed.

Lemma pending_pair_never_half_set_witness :
  pendingWriteBuffer
    (state_of (run_op (OpWritev [ChunkBuffer [x01]] 1%nat) (dc_handle "connecting" 0 None)
                      (fst (construct (dc_handle "connecting" 0 None) (Some 10) None))))
    = None <->
  pendingWriteCallback
    (state_of (run_op (OpWritev [ChunkBuffer [x01]] 1%nat) (dc_handle "connecting" 0 None)
                      (fst (construct (dc_handle "connecting" 0 None) (Some 10) None))))
    = None.
Proof.
  apply pending_pair_never_half_set. apply reach_op. apply reach_construct.
Defined.

(** C6.  Completing the outstanding write clears both fields first and then
    invokes its callback exactly once, with [null] or the error: whatever
    code the callback runs (reading the pending fields, re-entering the
    advance routine, handing over a new write) runs on the cleared state,
    and nothing of the completion happens after it.  In particular an
    advance re-entered from the callback sees no outstanding write and does
    nothing.  Every callback invocation of the advance routine is such a
    completion. *)
Theorem completion_clears_then_calls_once s c e h :
  pendingWriteCallback s = Some c ->
  (forall call : WriteCallback -> option Error -> M unit,
     _finishPendingWrite_with call e h s = call c e h (cleared s)) /\
  _finishPendingWrite_with (fun _ _ => _maybeProcessPendingWrite) e h s
    = (Ok tt, cleared s, []) /\
  _finishPendingWrite e h s = (Ok tt, cleared s, [CallWriteCallback c e]) /\
  (forall h', callback_calls (effects_of (_maybeProcessPendingWrite h' s)) = [] \/
     exists e', callback_calls (effects_of (_maybeProcessPendingWrite h' s)) = [(c, e')] /\
                state_of (_maybeProcessPendingWrite h' s) = cleared s).
Proof.
  intros Hc.
  assert (Hcall : forall call : WriteCallback -> option Error -> M unit,
             _finishPendingWrite_with call e h s = call c e h (cleared s)).
  { intros call. unfold _finishPendingWrite_with, modify, bind, get, put. cbn.
    rewrite Hc. unfold cleared. destruct (call c e h _) as [[r s2] t2]. reflexivity. }
  split; [exact Hcall|]. split.
  { rewrite Hcall. apply maybe_no_pending. reflexivity. }
  split; [apply finish_some, Hc|].
  intros h'. destruct (maybe_outcomes h' s) as [E|E|c' e' pre Hc' Hpre E|c' r ch _ E|c' _ _ E];
    rewrite E; unfold effects_of, state_of; auto.
  right. exists e'. rewrite callback_calls_app, Hpre. rewrite Hc in Hc'.
  injection Hc' as <-. auto.
Qed.

Lemma completion_clears_then_calls_once_witness :
  _finishPendingWrite_with (fun _ _ => _writev [ChunkBuffer [x07]] 2%nat) None
      (dc_handle "connecting" 0 None) (demo_pending 4)
    = _writev [ChunkBuffer [x07]] 2%nat (dc_handle "connecting" 0 None)
        (cleared (demo_pending 4)).
Proof.
  destruct (completion_clears_then_calls_once (demo_pending 4) 1%nat None
              (dc_handle "connecting" 0 None) eq_refl) as [H _].
  apply H.
Defined.

(** C7.  When [send] raises during an advance, the write's callback gets
    that same error once and the pending fields are cleared; the adapter's
    listeners, its [destroyed] flag and the transport are left alone (no
    [removeEventListener], no [close]). *)
Theorem send_failure_fails_only_the_write s h c b e :
  sentinels_distinct s ->
  pendingWriteCallback s = Some c -> pendingWriteBuffer s = Some b ->
  readyState h = openStateValue s -> headroom s h <> 0 -> sendThrows h = Some e ->
  _maybeProcessPendingWrite h s =
    (Ok tt, cleared s, [Send (chunk_for b (headroom s h)); CallWriteCallback c (Some e)]) /\
  listeners (cleared s) = listeners s /\ destroyed (cleared s) = destroyed s /\
  pendingWriteBuffer (cleared s) = None /\ pendingWriteCallback (cleared s) = None.
Proof.
  intros Hd Hc Hb Ho Hk He. destruct (open_flags s h Hd Ho) as [F1 F2].
  split; [|repeat split]. apply (maybe_send_throws h s c b e); auto.
Qed.

Lemma send_failure_fails_only_the_write_witness :
  _maybeProcessPendingWrite (dc_handle "open" 0 (Some send_error)) (demo_pending 4) =
    (Ok tt, cleared (demo_pending 4),
     [Send (bytes_upto 4); CallWriteCallback 1%nat (Some send_error)]).
Proof.
  apply (send_failure_fails_only_the_write (demo_pending 4) (dc_handle "open" 0 (Some send_error))
           1%nat (bytes_upto 4) send_error); try reflexivity; discriminate.
Defined.

(** C8 (as amended).  A write handed over while the transport is still
    connecting (neither sentinel) installs the pending write and sends
    nothing; every advance while it is still connecting leaves everything
    unchanged and sends nothing.  Once an open event fires, if at that
    advance and every later retry the transport is open with positive
    headroom and [send] does not raise, the full buffer is sent, in order,
    and the callback gets [null] once. *)
Theorem connecting_write_waits_for_open s chs cb h :
  pendingWriteCallback s = None -> sentinels_distinct s ->
  rs_eqb (readyState h) (openStateValue s) = false ->
  rs_eqb (readyState h) (closedStateValue s) = false ->
  _writev chs cb h s = (Ok tt, install chs cb s, []) /\
  (forall h', rs_eqb (readyState h') (openStateValue s) = false ->
              rs_eqb (readyState h') (closedStateValue s) = false ->
              _maybeProcessPendingWrite h' (install chs cb s) = (Ok tt, install chs cb s, [])) /\
  (forall h0 hs, good_handle s h0 -> Forall (good_handle s) hs ->
     (List.length (concat_chunks chs) <= List.length hs)%nat ->
     exists t,
       (let '(_, s2, t1) := _onOpen h0 (install chs cb s) in
        let '(s3, t2) := run_retries hs s2 in (s3, t1 ++ t2))
         = (cleared (install chs cb s), EmitConnect :: t) /\
       sent_bytes t = concat_chunks chs /\ callback_calls t = [(cb, None)]).
Proof.
  intros Hc Hd Hop Hcl.
  assert (Wait : forall h', rs_eqb (readyState h') (openStateValue s) = false ->
                   rs_eqb (readyState h') (closedStateValue s) = false ->
                   _maybeProcessPendingWrite h' (install chs cb s) =
                     (Ok tt, install chs cb s, [])).
  { intros h' Ho Hc'. apply (maybe_not_open h' _ cb); auto. }
  split; [rewrite writev_unfold; apply Wait; auto|]. split; [exact Wait|].
  intros h0 hs Hg0 Hgs Hlen.
  assert (Hall : Forall (good_handle (install chs cb s)) (h0 :: hs)) by (constructor; auto).
  assert (Hl : (List.length (concat_chunks chs) < List.length (h0 :: hs))%nat) by (cbn; lia).
  destruct (retries_deliver (h0 :: hs) (install chs cb s) cb (concat_chunks chs)
              Hd eq_refl eq_refl Hall Hl) as [t [Ht [Hs Hcb]]].
  exists t. split; [|auto].
  unfold _onOpen. rewrite emit_then. cbn [run_retries] in Ht.
  destruct (_maybeProcessPendingWrite h0 (install chs cb s)) as [[r s2] t1].
  destruct (run_retries hs s2) as [s3 t2]. injection Ht as -> <-. reflexivity.
Qed.

Lemma connecting_write_waits_for_open_witness :
  _writev [ChunkBuffer (bytes_upto 4)] 1%nat (dc_handle "connecting" 0 None) (demo_stream 10)
    = (Ok tt, demo_pending 4, []).
Proof.
  apply (connecting_write_waits_for_open (demo_stream 10) [ChunkBuffer (bytes_upto 4)] 1%nat
           (dc_handle "connecting" 0 None)); reflexivity.
Defined.

(** C8 as stated fails: after the open event, a [send] that raises fails
    the write after its first chunk; nothing of the rest is ever sent. *)
Lemma connecting_write_not_fully_sent_after_open :
  _writev [ChunkBuffer [x01; x02]] 1%nat (dc_handle "connecting" 0 None) (demo_stream 1)
    = (Ok tt, install [ChunkBuffer [x01; x02]] 1%nat (demo_stream 1), []) /\
  _onOpen (dc_handle "open" 0 (Some send_error))
          (install [ChunkBuffer [x01; x02]] 1%nat (demo_stream 1))
    = (Ok tt, cleared (install [ChunkBuffer [x01; x02]] 1%nat (demo_stream 1)),
       [EmitConnect; Send [x01]; CallWriteCallback 1%nat (Some send_error)]) /\
  (forall h, _maybeProcessPendingWrite h
               (cleared (install [ChunkBuffer [x01; x02]] 1%nat (demo_stream 1)))
             = (Ok tt, cleared (install [ChunkBuffer [x01; x02]] 1%nat (demo_stream 1)), [])).
Proof.
  split; [reflexivity|]. split; [reflexivity|].
  intros h. apply maybe_no_pending. reflexivity.
Qed.

Lemma _destroy_body e h s :
  _destroy e h s = (Ok tt, set_listeners [] s, destroy_effects e).
Proof.
  unfold _destroy, removeEventListener, modify, bind, get, put, emit, ret. cbn.
  rewrite filter_all_events. reflexivity.
Qed.

(** C9.  A destroy requested by the duplex layer leaves both pending fields
    as they are and invokes no write callback: [_destroy] only removes the
    four listeners, closes the transport and hands the error to the destroy
    callback. *)
Theorem destroy_leaves_pending_write s e h :
  pendingWriteBuffer (state_of (destroy e h s)) = pendingWriteBuffer s /\
  pendingWriteCallback (state_of (destroy e h s)) = pendingWriteCallback s /\
  callback_calls (effects_of (destroy e h s)) = [] /\
  _destroy e h s = (Ok tt, set_listeners [] s, destroy_effects e) /\
  (destroyed s = false -> destroy e h s = (Ok tt, torn_down s, destroy_effects e)).
Proof.
  destruct (destroy_pending e h s) as [B [C D]].
  split; [exact B|]. split; [exact C|]. split; [exact D|].
  split; [apply _destroy_body|]. apply destroy_fresh.
Qed.

Lemma destroy_leaves_pending_write_witness :
  destroy None (dc_handle "open" 0 None) (demo_pending 4)
    = (Ok tt, torn_down (demo_pending 4), destroy_effects None).
Proof.
  destruct (destroy_leaves_pending_write (demo_pending 4) None (dc_handle "open" 0 None))
    as [_ [_ [_ [_ F]]]].
  apply F. reflexivity.
Defined.

(** ** Which callbacks an entry point can invoke *)

(** The write callback an entry point installs, if any. *)
Definition op_callback (o : Op) : option WriteCallback :=
  match o with
  | OpWritev _ cb | OpWrite _ cb => Some cb
  | _ => None
  end.

Definition calls_to (t : list Effect) : list WriteCallback := map fst (callback_calls t).

Lemma maybe_no_call c_old h s :
  pendingWriteCallback s <> Some c_old ->
  ~ In c_old (calls_to (effects_of (_maybeProcessPendingWrite h s))) /\
  pendingWriteCallback (state_of (_maybeProcessPendingWrite h s)) <> Some c_old.
Proof.
  intros Hn. unfold calls_to.
  destruct (maybe_outcomes h s) as [E|E|c e pre Hc Hpre E|c r ch Hc E|c Hc _ E];
    rewrite E; unfold effects_of, state_of; auto.
  rewrite callback_calls_app, Hpre. cbn. split; [|discriminate].
  intros [Heq|[]]. subst. congruence.
Qed.

Lemma then_destroy_no_call c_old (m : M unit) e h s :
  ~ In c_old (calls_to (effects_of (m h s))) /\
  pendingWriteCallback (state_of (m h s)) <> Some c_old ->
  ~ In c_old (calls_to (effects_of ((m ;; destroy e) h s))) /\
  pendingWriteCallback (state_of ((m ;; destroy e) h s)) <> Some c_old.
Proof.
  rewrite bind_effects, bind_state. unfold calls_to.
  destruct (m h s) as [[[u|err] s1] t1]; cbn [effects_of state_of]; [|auto].
  intros [N1 N2]. destruct (destroy_pending e h s1) as [_ [C D]].
  rewrite callback_calls_app, D, app_nil_r, C. auto.
Qed.

Lemma op_no_call c_old o h s :
  pendingWriteCallback s <> Some c_old -> op_callback o <> Some c_old ->
  ~ In c_old (calls_to (effects_of (run_op o h s))) /\
  pendingWriteCallback (state_of (run_op o h s)) <> Some c_old.
Proof.
  intros Hs Ho. destruct o as [chs cb|ch cb| | | |ev|d|e]; cbn [run_op] in *.
  - rewrite writev_unfold. apply maybe_no_call. cbn. exact Ho.
  - unfold _write. rewrite writev_unfold. apply maybe_no_call. cbn. exact Ho.
  - apply maybe_no_call, Hs.
  - unfold _onOpen. rewrite emit_then.
    pose proof (maybe_no_call c_old h s Hs) as P.
    destruct (_maybeProcessPendingWrite h s) as [[r s2] t2]. exact P.
  - apply then_destroy_no_call, maybe_no_call, Hs.
  - apply then_destroy_no_call, maybe_no_call, Hs.
  - unfold _onMessage, emit. cbn. auto.
  - destruct (destroy_pending e h s) as [_ [C D]]. unfold calls_to. rewrite C, D. auto.
Qed.

Lemma run_ops_no_call c_old os s :
  pendingWriteCallback s <> Some c_old ->
  Forall (fun p => op_callback (fst p) <> Some c_old) os ->
  ~ In c_old (calls_to (snd (run_ops os s))).
Proof.
  revert s. induction os as [|[o h] os IH]; intros s Hs Hos; cbn [run_ops]; [cbn; auto|].
  inversion Hos as [|? ? Ho Hrest]; subst.
  destruct (op_no_call c_old o h s Hs Ho) as [N1 N2].
  destruct (run_op o h s) as [[r s1] t1]. cbn [effects_of state_of] in N1, N2.
  specialize (IH s1 N2 Hrest).
  destruct (run_ops os s1) as [s2 t2]. cbn [snd] in *.
  unfold calls_to in *. rewrite callback_calls_app, map_app.
  intros Hin. apply in_app_or in Hin. tauto.
Qed.

(** C10.  [_writev] replaces the pending buffer by the concatenation of
    the chunks (strings encoded as UTF-8) and the pending callback by the
    new one, whatever was pending before, then advances.  A callback it
    replaces is not invoked by that call, nor by any later sequence of
    entry points that does not hand that same callback over again. *)
Theorem writev_replaces_pending_write chs cb h s :
  _writev chs cb h s = _maybeProcessPendingWrite h (install chs cb s) /\
  pendingWriteBuffer (install chs cb s) = Some (List.concat (map chunk_bytes chs)) /\
  pendingWriteCallback (install chs cb s) = Some cb /\
  (forall c_old, c_old <> cb ->
     ~ In c_old (calls_to (effects_of (_writev chs cb h s))) /\
     forall os, Forall (fun p => op_callback (fst p) <> Some c_old) os ->
       ~ In c_old (calls_to (snd (run_ops os (state_of (_writev chs cb h s)))))).
Proof.
  split; [apply writev_unfold|]. split; [reflexivity|]. split; [reflexivity|].
  intros c_old Hne.
  assert (Hi : pendingWriteCallback (install chs cb s) <> Some c_old)
    by (cbn; intros E; injection E; auto).
  rewrite writev_unfold. destruct (maybe_no_call c_old h _ Hi) as [N1 N2].
  split; [exact N1|]. intros os Hos. apply run_ops_no_call; assumption.
Qed.

Lemma writev_replaces_pending_write_witness :
  ~ In 7%nat (calls_to (effects_of (_writev [ChunkString [104; 105]] 1%nat
                                             (dc_handle "open" 0 None)
                                             (install [ChunkBuffer [x01]] 7%nat
                                                      (demo_stream 10))))).
Proof.
  destruct (writev_replaces_pending_write [ChunkString [104; 105]] 1%nat
              (dc_handle "open" 0 None) (install [ChunkBuffer [x01]] 7%nat (demo_stream 10)))
    as [_ [_ [_ F]]].
  apply (F 7%nat). discriminate.
Defined.

(** ** Further properties of the write path *)

(** [buffer.slice(0, k)] followed by [buffer.slice(k)] is the buffer, for
    every [k], negative ones included. *)
Lemma slice_split b k : slice b 0 k ++ slice_from b k = b.
Proof.
  unfold slice_from, slice.
  remember (Z.of_nat (List.length b)) as len eqn:Elen.
  assert (Hlen : 0 <= len) by lia.
  assert (H0 : slice_index len 0 = 0) by (unfold slice_index; cbn; lia).
  assert (Hl : slice_index len len = len)
    by (unfold slice_index; destruct (len <? 0) eqn:E; [apply Z.ltb_lt in E; lia| lia]).
  assert (Hk : 0 <= slice_index len k <= len)
    by (unfold slice_index; destruct (k <? 0) eqn:E; [apply Z.ltb_lt in E|]; lia).
  rewrite H0, Hl. cbn [skipn]. rewrite Z.sub_0_r.
  rewrite (firstn_all2 (n := Z.to_nat (len - slice_index len k)));
    [apply firstn_skipn|].
  rewrite length_skipn. lia.
Qed.

Lemma slice_prefix_length b k :
  0 <= k -> (List.length (slice b 0 k) <= Z.to_nat k)%nat.
Proof.
  intros Hk. unfold slice, slice_index. cbn [Z.ltb Z.compare].
  destruct (k <? 0) eqn:E; [apply Z.ltb_lt in E; lia|].
  rewrite length_firstn. lia.
Qed.

(** Split on every branch of [_maybeProcessPendingWrite], rewriting the
    call by the branch's equation. *)
Ltac maybe_branches h s :=
  let Hc := fresh "Hc" in let Hcl := fresh "Hcl" in let Hop := fresh "Hop" in
  let Hk := fresh "Hk" in let Hb := fresh "Hb" in let He := fresh "He" in
  let Hl := fresh "Hl" in
  destruct (pendingWriteCallback s) as [c|] eqn:Hc;
  [ destruct (rs_eqb (readyState h) (closedStateValue s)) eqn:Hcl;
    [ rewrite (maybe_closed h s c) by assumption
    | destruct (rs_eqb (readyState h) (openStateValue s)) eqn:Hop;
      [ destruct (Z.eq_dec (headroom s h) 0) as [Hk|Hk];
        [ rewrite (maybe_no_space h s c) by assumption
        | destruct (pendingWriteBuffer s) as [b|] eqn:Hb;
          [ destruct (sendThrows h) as [e|] eqn:He;
            [ rewrite (maybe_send_throws h s c b e) by assumption
            | destruct (Z_lt_le_dec (headroom s h) (Z.of_nat (List.length b))) as [Hl|Hl];
              [ rewrite (maybe_partial h s c b) by (auto; lia)
              | rewrite (maybe_complete h s c b) by assumption ] ]
          | rewrite (maybe_no_buffer h s c) by assumption ] ]
      | rewrite (maybe_not_open h s c) by assumption ] ]
  | rewrite maybe_no_pending by assumption ].

(** While the transport is not closed and [send] does not raise, one advance
    moves bytes from the front of the pending buffer to [send] and keeps the
    rest: the bytes sent followed by the new pending buffer are the old
    pending buffer, whatever the headroom, negative values included. *)
Theorem advance_preserves_byte_order h s :
  rs_eqb (readyState h) (closedStateValue s) = false -> sendThrows h = None ->
  sent_bytes (effects_of (_maybeProcessPendingWrite h s))
    ++ pending_bytes (state_of (_maybeProcessPendingWrite h s)) = pending_bytes s.
Proof.
  intros Hclosed Hthrow. maybe_branches h s; cbn [effects_of state_of];
    try congruence; try reflexivity.
  - unfold sent_bytes, pending_bytes. cbn. rewrite Hb, app_nil_r. apply slice_split.
  - unfold sent_bytes, pending_bytes. cbn. rewrite Hb, !app_nil_r. reflexivity.
Qed.

Lemma advance_preserves_byte_order_witness :
  sent_bytes (effects_of (_maybeProcessPendingWrite (dc_handle "open" 13 None) (demo_pending 10)))
    ++ pending_bytes (state_of (_maybeProcessPendingWrite (dc_handle "open" 13 None)
                                                         (demo_pending 10)))
  = pending_bytes (demo_pending 10).
Proof.
  apply advance_preserves_byte_order; reflexivity.
Defined.

(** With non-negative headroom, no chunk handed to [send] is longer than the
    headroom [bufferSize - bufferedAmount]. *)
Theorem advance_respects_headroom h s :
  0 <= headroom s h ->
  Forall (fun e => match e with
                   | Send ch => Z.of_nat (List.length ch) <= headroom s h
                   | _ => True
                   end) (effects_of (_maybeProcessPendingWrite h s)).
Proof.
  intros H0. maybe_branches h s; cbn [effects_of]; repeat constructor.
  - unfold chunk_for. destruct (Z.of_nat (List.length b) >? headroom s h) eqn:E.
    + pose proof (slice_prefix_length b (headroom s h) H0). lia.
    + rewrite Z.gtb_ltb in E. apply Z.ltb_ge in E. lia.
  - pose proof (slice_prefix_length b (headroom s h) H0). lia.
  - lia.
Qed.

Lemma advance_respects_headroom_witness :
  Forall (fun e => match e with
                   | Send ch => Z.of_nat (List.length ch) <= 10
                   | _ => True
                   end)
         (effects_of (_maybeProcessPendingWrite (dc_handle "open" 0 None) (demo_pending 15))).
Proof. apply (advance_respects_headroom (dc_handle "open" 0 None) (demo_pending 15)).
  vm_compute. discriminate. Defined.

(** While the transport is open but has no headroom, every retry leaves the
    pending write as it is, sends nothing and only schedules the next retry
    after [bufferTimeout]: a write can wait indefinitely. *)
Theorem zero_headroom_only_polls hs s c :
  sentinels_distinct s -> pendingWriteCallback s = Some c ->
  Forall (fun h => readyState h = openStateValue s /\ headroom s h = 0) hs ->
  run_retries hs s = (s, repeat (SetTimeoutRetry (bufferTimeout s)) (List.length hs)).
Proof.
  intros Hd Hc. induction hs as [|h hs IH]; intros Hall; [reflexivity|].
  inversion Hall as [|? ? [Ho Hk] Hrest]; subst.
  destruct (open_flags s h Hd Ho) as [F1 F2].
  cbn [run_retries]. rewrite (maybe_no_space h s c) by assumption.
  rewrite (IH Hrest). reflexivity.
Qed.

Lemma zero_headroom_only_polls_witness :
  run_retries [dc_handle "open" 10 None; dc_handle "open" 10 None] (demo_pending 4)
    = (demo_pending 4, [SetTimeoutRetry 50; SetTimeoutRetry 50]).
Proof.
  pose proof (zero_headroom_only_polls [dc_handle "open" 10 None; dc_handle "open" 10 None]
                (demo_pending 4) 1%nat eq_refl eq_refl) as H.
  apply H. repeat constructor.
Defined.

(** A write of no bytes (no chunks, or only empty ones) on an open
    transport with positive headroom calls [send] once with an empty buffer
    and completes at once with [null]. *)
Theorem empty_write_completes_at_once chs cb h s :
  sentinels_distinct s -> good_handle s h -> concat_chunks chs = [] ->
  _writev chs cb h s =
    (Ok tt, cleared (install chs cb s), [Send []; CallWriteCallback cb None]).
Proof.
  intros Hd Hg He. rewrite writev_unfold.
  rewrite (maybe_good_complete h (install chs cb s) cb (concat_chunks chs));
    [ rewrite He; reflexivity | exact Hd | exact Hg | reflexivity | reflexivity | ].
  rewrite He. destruct Hg as [[_ Hk] _]. cbn. unfold headroom in *. cbn. lia.
Qed.

Lemma empty_write_completes_at_once_witness :
  _writev [] 3%nat (dc_handle "open" 0 None) (demo_stream 10) =
    (Ok tt, cleared (install [] 3%nat (demo_stream 10)), [Send []; CallWriteCallback 3%nat None]).
Proof.
  apply empty_write_completes_at_once; [reflexivity | repeat split; vm_compute; reflexivity
                                       | reflexivity].
Defined.

(** A write handed over when the transport's [readyState] is the closed
    sentinel fails at once with "not connected", without calling [send],
    and leaves no pending write. *)
Theorem write_on_closed_transport_fails h s chs cb :
  readyState h = closedStateValue s ->
  _writev chs cb h s =
    (Ok tt, cleared (install chs cb s),
     [CallWriteCallback cb (Some (mkError "not connected"))]).
Proof.
  intros Hrs. rewrite writev_unfold. apply maybe_closed; [reflexivity|].
  cbn. rewrite Hrs. apply rs_eqb_refl.
Qed.

Lemma write_on_closed_transport_fails_witness :
  _writev [ChunkBuffer [x01]] 2%nat (dc_handle "closed" 0 None) (demo_stream 10) =
    (Ok tt, cleared (install [ChunkBuffer [x01]] 2%nat (demo_stream 10)),
     [CallWriteCallback 2%nat (Some (mkError "not connected"))]).
Proof. apply write_on_closed_transport_fails. reflexivity. Defined.

(** ** Lifecycle across every entry point *)

(** The options and sentinels fixed by the constructor. *)
Definition config (s : RTCStream) : Z * Z * ReadyState * ReadyState :=
  (bufferSize s, bufferTimeout s, openStateValue s, closedStateValue s).

Definition all_listeners : list EventName := [EvOpen; EvClose; EvError; EvMessage].

(** The listeners registered on the handle match the stream's life: all four
    while it lives, none once destroyed. *)
Definition listeners_ok (s : RTCStream) : Prop :=
  listeners s = if destroyed s then [] else all_listeners.

(** The number of [handle.close()] calls in an effect log. *)
Definition close_count (t : list Effect) : nat :=
  List.length (filter (fun e => match e with CloseHandle => true | _ => false end) t).

Lemma close_count_app t1 t2 : close_count (t1 ++ t2) = (close_count t1 + close_count t2)%nat.
Proof. unfold close_count. rewrite filter_app, length_app. reflexivity. Qed.

Lemma maybe_frame h s :
  config (state_of (_maybeProcessPendingWrite h s)) = config s /\
  listeners (state_of (_maybeProcessPendingWrite h s)) = listeners s /\
  destroyed (state_of (_maybeProcessPendingWrite h s)) = destroyed s /\
  close_count (effects_of (_maybeProcessPendingWrite h s)) = 0%nat.
Proof. maybe_branches h s; cbn; auto. Qed.

Lemma destroy_frame e h s :
  config (state_of (destroy e h s)) = config s /\
  (close_count (effects_of (destroy e h s)) + Nat.b2n (destroyed s)
   = Nat.b2n (destroyed (state_of (destroy e h s))))%nat /\
  (listeners_ok s -> listeners_ok (state_of (destroy e h s))).
Proof.
  destruct (destroyed s) eqn:Hd.
  - rewrite destroy_again by exact Hd. cbn. rewrite Hd. auto.
  - rewrite destroy_fresh by exact Hd. cbn. split; [reflexivity|].
    split; [reflexivity|]. intros _. reflexivity.
Qed.

Lemma maybe_then_destroy_frame e h s :
  config (state_of ((_maybeProcessPendingWrite ;; destroy e) h s)) = config s /\
  (close_count (effects_of ((_maybeProcessPendingWrite ;; destroy e) h s))
   + Nat.b2n (destroyed s)
   = Nat.b2n (destroyed (state_of ((_maybeProcessPendingWrite ;; destroy e) h s))))%nat /\
  (listeners_ok s -> listeners_ok (state_of ((_maybeProcessPendingWrite ;; destroy e) h s))).
Proof.
  rewrite bind_state, bind_effects.
  destruct (maybe_frame h s) as [F1 [F2 [F3 F4]]].
  destruct (_maybeProcessPendingWrite h s) as [[[u|err] s1] t1];
    cbn [state_of effects_of] in F1, F2, F3, F4.
  - destruct (destroy_frame e h s1) as [D1 [D2 D3]].
    rewrite close_count_app, F4, D1, F1, <- F3. split; [reflexivity|]. split; [exact D2|].
    intros L. apply D3. unfold listeners_ok in *. rewrite F2, F3. exact L.
  - rewrite F1, F4, F3. split; [reflexivity|]. split; [reflexivity|].
    unfold listeners_ok. rewrite F2, F3. auto.
Qed.

Lemma op_frame o h s :
  config (state_of (run_op o h s)) = config s /\
  (close_count (effects_of (run_op o h s)) + Nat.b2n (destroyed s)
   = Nat.b2n (destroyed (state_of (run_op o h s))))%nat /\
  (listeners_ok s -> listeners_ok (state_of (run_op o h s))).
Proof.
  destruct o as [chs cb|ch cb| | | |ev|d|e]; cbn [run_op].
  - rewrite writev_unfold. destruct (maybe_frame h (install chs cb s)) as [F1 [F2 [F3 F4]]].
    rewrite F1, F4, F3. unfold listeners_ok. rewrite F2, F3. auto.
  - unfold _write. rewrite writev_unfold.
    destruct (maybe_frame h (install [ch] cb s)) as [F1 [F2 [F3 F4]]].
    rewrite F1, F4, F3. unfold listeners_ok. rewrite F2, F3. auto.
  - destruct (maybe_frame h s) as [F1 [F2 [F3 F4]]].
    rewrite F1, F4, F3. unfold listeners_ok. rewrite F2, F3. auto.
  - unfold _onOpen. rewrite emit_then.
    destruct (maybe_frame h s) as [F1 [F2 [F3 F4]]].
    destruct (_maybeProcessPendingWrite h s) as [[r s2] t2].
    cbn [state_of effects_of] in *. rewrite F1, F3. unfold listeners_ok. rewrite F2, F3.
    split; [reflexivity|]. split; [|auto]. unfold close_count in *. cbn. lia.
  - apply maybe_then_destroy_frame.
  - apply maybe_then_destroy_frame.
  - cbn. auto.
  - apply destroy_frame.
Qed.

Lemma run_ops_frame os s :
  config (fst (run_ops os s)) = config s /\
  (close_count (snd (run_ops os s)) + Nat.b2n (destroyed s)
   = Nat.b2n (destroyed (fst (run_ops os s))))%nat /\
  (listeners_ok s -> listeners_ok (fst (run_ops os s))).
Proof.
  revert s. induction os as [|[o h] os IH]; intros s; [cbn; auto|].
  cbn [run_ops]. destruct (op_frame o h s) as [O1 [O2 O3]].
  destruct (run_op o h s) as [[r s1] t1]. cbn [state_of effects_of] in O1, O2, O3.
  destruct (IH s1) as [I1 [I2 I3]].
  destruct (run_ops os s1) as [s2 t2]. cbn [fst snd] in *.
  rewrite close_count_app. split; [congruence|]. split; [lia|]. auto.
Qed.

(** Over any sequence of entry points, [handle.close()] is called exactly
    once if the stream goes from live to destroyed and never otherwise: at
    most once in all, and never on a stream already destroyed. *)
Theorem handle_closed_at_most_once os s :
  (close_count (snd (run_ops os s)) + Nat.b2n (destroyed s)
   = Nat.b2n (destroyed (fst (run_ops os s))))%nat /\
  (close_count (snd (run_ops os s)) <= 1)%nat.
Proof.
  destruct (run_ops_frame os s) as [_ [C _]]. split; [exact C|].
  destruct (destroyed (fst (run_ops os s))); cbn in C; lia.
Qed.

(** In every reachable state, the four transport listeners are all
    registered while the stream is live and none is left once it is
    destroyed. *)
Theorem listeners_follow_lifecycle s :
  reachable s ->
  listeners s = if destroyed s then [] else [EvOpen; EvClose; EvError; EvMessage].
Proof.
  induction 1 as [h b t|s o h _ IH].
  - unfold construct. destruct (kind h); reflexivity.
  - destruct (op_frame o h s) as [_ [_ L]]. apply L, IH.
Qed.

Lemma listeners_follow_lifecycle_witness :
  listeners (state_of (run_op OpClose (dc_handle "closed" 0 None) (demo_stream 10)))
  = if destroyed (state_of (run_op OpClose (dc_handle "closed" 0 None) (demo_stream 10)))
    then [] else [EvOpen; EvClose; EvError; EvMessage].
Proof. apply listeners_follow_lifecycle. apply reach_op. apply reach_construct. Defined.

(** ** Construction *)

Lemma construct_state h b t :
  pendingWriteCallback (fst (construct h b t)) = None /\
  destroyed (fst (construct h b t)) = false /\
  snd (construct h b t) =
    [AddListener EvOpen; AddListener EvClose; AddListener EvError; AddListener EvMessage]
    ++ (if rs_eqb (readyState h) (openStateValue (fst (construct h b t))) then [NextTick EvOpen]
        else if rs_eqb (readyState h) (closedStateValue (fst (construct h b t)))
             then [NextTick EvClose] else []).
Proof. unfold construct. destruct (kind h); auto. Qed.

(** A stream built over a transport that is already open schedules its
    [open] handler on the next tick, and that handler only emits "connect":
    there is nothing to send yet. *)
Theorem construct_on_open_transport h b t :
  readyState h = openStateValue (fst (construct h b t)) ->
  snd (construct h b t) =
    [AddListener EvOpen; AddListener EvClose; AddListener EvError; AddListener EvMessage;
     NextTick EvOpen] /\
  _onOpen h (fst (construct h b t)) = (Ok tt, fst (construct h b t), [EmitConnect]).
Proof.
  intros Ho. destruct (construct_state h b t) as [Hc [_ Ht]].
  rewrite Ht, Ho, rs_eqb_refl. split; [reflexivity|].
  unfold _onOpen. rewrite emit_then, maybe_no_pending by exact Hc. reflexivity.
Qed.

Lemma construct_on_open_transport_witness :
  readyState (dc_handle "open" 0 None)
    = openStateValue (fst (construct (dc_handle "open" 0 None) None None)) /\
  snd (construct (dc_handle "open" 0 None) None None) =
    [AddListener EvOpen; AddListener EvClose; AddListener EvError; AddListener EvMessage;
     NextTick EvOpen] /\
  _onOpen (dc_handle "open" 0 None) (fst (construct (dc_handle "open" 0 None) None None))
    = (Ok tt, fst (construct (dc_handle "open" 0 None) None None), [EmitConnect]).
Proof. split; [reflexivity|]. apply construct_on_open_transport. reflexivity. Defined.

(** A stream built over a transport that is already closed (its open and
    closed sentinels being distinct) schedules its [close] handler on the
    next tick, and that handler tears the stream down with "connection
    closed": the four listeners removed, [handle.close()] called, the
    destroy callback given the error, and no write callback called. *)
Theorem construct_on_closed_transport h b t :
  sentinels_distinct (fst (construct h b t)) ->
  readyState h = closedStateValue (fst (construct h b t)) ->
  snd (construct h b t) =
    [AddListener EvOpen; AddListener EvClose; AddListener EvError; AddListener EvMessage;
     NextTick EvClose] /\
  _onClose h (fst (construct h b t)) =
    (Ok tt, torn_down (fst (construct h b t)),
     [RemoveListener EvMessage; RemoveListener EvError; RemoveListener EvClose;
      RemoveListener EvOpen; CloseHandle;
      DestroyCallback (Some (mkError "connection closed"))]).
Proof.
  intros Hd Hcl. destruct (construct_state h b t) as [Hc [Hdes Ht]].
  unfold sentinels_distinct in Hd.
  assert (Hop : rs_eqb (readyState h) (openStateValue (fst (construct h b t))) = false).
  { rewrite Hcl.
    destruct (rs_eqb (closedStateValue (fst (construct h b t)))
                     (openStateValue (fst (construct h b t)))) eqn:E; [|reflexivity].
    apply rs_eqb_eq in E. rewrite <- E, rs_eqb_refl in Hd. discriminate. }
  rewrite Ht, Hop, Hcl, rs_eqb_refl. split; [reflexivity|].
  unfold _onClose. rewrite (bind_ok _ _ h _ tt _ []) by (apply maybe_no_pending, Hc).
  rewrite destroy_fresh by exact Hdes. reflexivity.
Qed.

Lemma construct_on_closed_transport_witness :
  snd (construct (dc_handle "closed" 0 None) (Some 10) None) =
    [AddListener EvOpen; AddListener EvClose; AddListener EvError; AddListener EvMessage;
     NextTick EvClose] /\
  _onClose (dc_handle "closed" 0 None) (fst (construct (dc_handle "closed" 0 None) (Some 10) None)) =
    (Ok tt, torn_down (fst (construct (dc_handle "closed" 0 None) (Some 10) None)),
     [RemoveListener EvMessage; RemoveListener EvError; RemoveListener EvClose;
      RemoveListener EvOpen; CloseHandle;
      DestroyCallback (Some (mkError "connection closed"))]).
Proof. apply construct_on_closed_transport; reflexivity. Defined.

(** ** String chunks *)

(** The string ends in a high surrogate (the first half of a pair). *)
Fixpoint ends_high (str : JSString) : bool :=
  match str with
  | [] => false
  | [u] => is_high_surrogate u
  | _ :: rest => ends_high rest
  end.

Lemma ends_high_cons u rest :
  rest <> [] -> ends_high (u :: rest) = ends_high rest.
Proof. destruct rest; [congruence|reflexivity]. Qed.

Lemma utf8_encode_app_aux n a b :
  (List.length a <= n)%nat -> ends_high a = false ->
  utf8_encode (a ++ b) = utf8_encode a ++ utf8_encode b.
Proof.
  revert a. induction n as [|n IH]; intros a Hn He.
  { destruct a; [reflexivity|cbn in Hn; lia]. }
  destruct a as [|u rest]; [reflexivity|].
  assert (Hr : ends_high rest = false).
  { destruct rest; [reflexivity|]. rewrite ends_high_cons in He by discriminate. exact He. }
  cbn [app utf8_encode]. cbn in Hn.
  destruct (is_high_surrogate u) eqn:Hh.
  - destruct rest as [|u2 rest']; [cbn in He; congruence|].
    cbn [app]. destruct (is_low_surrogate u2).
    + assert (Hr' : ends_high rest' = false).
      { destruct rest'; [reflexivity|]. rewrite ends_high_cons in Hr by discriminate. exact Hr. }
      rewrite (IH rest') by (cbn in Hn; lia || assumption). apply app_assoc.
    + change (u2 :: rest' ++ b) with ((u2 :: rest') ++ b).
      rewrite (IH (u2 :: rest')) by (lia || assumption). apply app_assoc.
  - destruct (is_low_surrogate u); rewrite (IH rest) by (lia || assumption); apply app_assoc.
Qed.

(** Writing two string chunks at once sends the same bytes as writing their
    concatenation, unless the first chunk ends in the first half of a
    surrogate pair. *)
Theorem string_chunks_concat a b :
  ends_high a = false ->
  concat_chunks [ChunkString a; ChunkString b] = concat_chunks [ChunkString (a ++ b)].
Proof.
  intros He. unfold concat_chunks. cbn. rewrite !app_nil_r.
  symmetry. apply (utf8_encode_app_aux (List.length a)); [lia|exact He].
Qed.

Lemma string_chunks_concat_witness :
  ends_high [104; 105] = false /\
  concat_chunks [ChunkString [104; 105]; ChunkString [55357; 56832]]
    = concat_chunks [ChunkString ([104; 105] ++ [55357; 56832])].
Proof. split; [reflexivity|]. apply string_chunks_concat. reflexivity. Defined.

(** The string does not start with a low surrogate (the second half of a
    pair). *)
Definition starts_nonlow (str : JSString) : bool :=
  match str with [] => true | u :: _ => negb (is_low_surrogate u) end.

Lemma utf8_encode_app_gen n a b :
  (List.length a <= n)%nat -> ends_high a = false \/ starts_nonlow b = true ->
  utf8_encode (a ++ b) = utf8_encode a ++ utf8_encode b.
Proof.
  revert a. induction n as [|n IH]; intros a Hn He.
  { destruct a; [reflexivity|cbn in Hn; lia]. }
  destruct a as [|u rest]; [reflexivity|].
  assert (Hr : ends_high rest = false \/ starts_nonlow b = true).
  { destruct He as [He|He]; [|auto]. left.
    destruct rest; [reflexivity|]. rewrite ends_high_cons in He by discriminate. exact He. }
  cbn [app utf8_encode]. cbn in Hn.
  destruct (is_high_surrogate u) eqn:Hh.
  - destruct rest as [|u2 rest'].
    + destruct He as [He|He]; [cbn in He; congruence|].
      destruct b as [|u2 b']; [reflexivity|]. cbn in He.
      destruct (is_low_surrogate u2) eqn:El; [discriminate|]. cbn. rewrite El. reflexivity.
    + cbn [app]. destruct (is_low_surrogate u2).
      * assert (Hr' : ends_high rest' = false \/ starts_nonlow b = true).
        { destruct Hr as [Hr|Hr]; [|auto]. left.
          destruct rest'; [reflexivity|]. rewrite ends_high_cons in Hr by discriminate.
          exact Hr. }
        rewrite (IH rest') by (cbn in Hn; lia || assumption). apply app_assoc.
      * change (u2 :: rest' ++ b) with ((u2 :: rest') ++ b).
        rewrite (IH (u2 :: rest')) by (lia || assumption). apply app_assoc.
  - destruct (is_low_surrogate u); rewrite (IH rest) by (lia || assumption); apply app_assoc.
Qed.

(** A surrogate pair split across two string chunks of one write is not
    rejoined: each chunk is encoded on its own, so each half is sent as
    U+FFFD (EF BF BD), where the same pair within one chunk is sent as its
    4-byte UTF-8 code point. *)
Theorem split_surrogate_pair_not_rejoined a hi lo b :
  is_high_surrogate hi = true -> is_low_surrogate lo = true ->
  concat_chunks [ChunkString (a ++ [hi]); ChunkString (lo :: b)] =
    utf8_encode a ++ [xef; xbf; xbd] ++ [xef; xbf; xbd] ++ utf8_encode b /\
  concat_chunks [ChunkString (a ++ hi :: lo :: b)] =
    utf8_encode a ++ utf8_code_point (65536 + (hi - 55296) * 1024 + (lo - 56320))
                  ++ utf8_encode b.
Proof.
  intros Hh Hl.
  assert (Hnh : is_high_surrogate lo = false).
  { unfold is_high_surrogate, is_low_surrogate in *.
    apply andb_true_iff in Hl. destruct Hl as [L1 L2]. apply Z.leb_le in L1.
    destruct (55296 <=? lo); [|reflexivity]. cbn. apply Z.leb_gt. lia. }
  assert (Hnl : starts_nonlow (hi :: lo :: b) = true /\ starts_nonlow [hi] = true).
  { unfold starts_nonlow, is_high_surrogate, is_low_surrogate in *.
    apply andb_true_iff in Hh. destruct Hh as [H1 H2]. apply Z.leb_le in H2.
    replace (56320 <=? hi) with false by (symmetry; apply Z.leb_gt; lia). auto. }
  destruct Hnl as [Hn1 Hn2].
  unfold concat_chunks. cbn [map chunk_bytes List.concat]. rewrite !app_nil_r. split.
  - rewrite (utf8_encode_app_gen (List.length a)) by (lia || auto).
    cbn [utf8_encode]. rewrite Hh, Hnh, Hl. rewrite <- !app_assoc. reflexivity.
  - rewrite (utf8_encode_app_gen (List.length a)) by (lia || auto).
    cbn [utf8_encode]. rewrite Hh, Hl. reflexivity.
Qed.

Lemma split_surrogate_pair_not_rejoined_witness :
  concat_chunks [ChunkString ([55296; 55357] ++ [55357]); ChunkString (56832 :: [])] =
    utf8_encode [55296; 55357] ++ [xef; xbf; xbd] ++ [xef; xbf; xbd] ++ utf8_encode [] /\
  concat_chunks [ChunkString ([55296; 55357] ++ 55357 :: 56832 :: [])] =
    utf8_encode [55296; 55357]
      ++ utf8_code_point (65536 + (55357 - 55296) * 1024 + (56832 - 56320))
      ++ utf8_encode [].
Proof. apply split_surrogate_pair_not_rejoined; reflexivity. Defined.
